(** * update_packages.py: the package-declaration rewriter

    A shallow embedding of the script and of the parts of the Python
    runtime it calls ([re.sub], text-mode [open], [os.path], [os.listdir]),
    followed by the properties of the script proved over that embedding.

    Python [str] values are sequences of Unicode code points: they are
    modelled as [list N].  Files hold text (the UTF-8 decoding of their
    bytes); writing a text that UTF-8 cannot encode raises.  Decoding
    errors and permission errors are outside the model. *)

From Stdlib Require Import NArith Ascii String.
From stdpp Require Import base gmap strings list.

(** ** Python strings *)

Module PyStr.

(** A string literal of the source, as code points. *)
Definition str (s : string) : list N := N_of_ascii <$> list_ascii_of_string s.

Definition LF : N := 10.
Definition CR : N := 13.
Definition SEMI : N := 59.
Definition BACKSLASH : N := 92.
Definition SLASH : N := 47.

(** [s.startswith(p)] *)
Fixpoint startswith (s p : list N) : bool :=
  match p, s with
  | [], _ => true
  | a :: p', c :: s' => (c =? a)%N && startswith s' p'
  | _ :: _, [] => false
  end.

(** [s.endswith(p)] *)
Definition endswith (s p : list N) : bool :=
  startswith (drop (length s - length p) s) p && (length p <=? length s)%nat.

(** [c in s] for a one-character [c] *)
Definition contains (c : N) (s : list N) : bool := existsb (N.eqb c) s.

(** The exceptions the script can meet.  [TemplateError] stands for what
    the replacement-template compiler of [re] raises ([re.error], or
    [IndexError] for an unknown group name). *)
Inductive exn :=
| FileNotFoundError
| IsADirectoryError
| NotADirectoryError
| TemplateError
| UnicodeEncodeError.

(** Outcome of a call: a value, or an exception propagating. *)
Inductive result (A : Type) :=
| Ok (a : A)
| Raise (e : exn).
Arguments Ok {A} a.
Arguments Raise {A} e.

End PyStr.
Import PyStr.

(** ** The regular-expression engine ([re.sub] with [count=1]) *)

Module Re.

(** [\s] on a [str] pattern: the code points for which CPython's
    [Py_UNICODE_ISSPACE] holds. *)
Definition uni_isspace (c : N) : bool :=
  ((9 <=? c) && (c <=? 13) || (28 <=? c) && (c <=? 32)
   || (c =? 133) || (c =? 160) || (c =? 5760)
   || (8192 <=? c) && (c <=? 8202)
   || (c =? 8232) || (c =? 8233) || (c =? 8239) || (c =? 8287)
   || (c =? 12288))%N.

(** [[^;]] *)
Definition not_semicolon (c : N) : bool := negb (c =? SEMI)%N.

(** The constructs the script's pattern is built from, named after the
    opcodes of [sre_parse]. *)
Inductive regex :=
| AtBeginningLine                        (* [^] under [re.MULTILINE] *)
| Literal (s : list N)                   (* a run of literal characters *)
| MaxRepeat1 (p : N → bool)              (* [x+], greedy, [x] a character class *)
| Branch (r1 r2 : regex)                 (* [r1|r2], alternatives tried in order *)
| Subpattern (i : nat) (r : regex)       (* capturing group number [i] *)
| Seq (r1 r2 : regex).                   (* concatenation *)

Infix "⋅" := Seq (at level 41, right associativity).

(** Matcher state: the text left of the cursor (reversed), the text right
    of it, and the groups captured so far (latest first). *)
Record mstate := MState {
  seen : list N;
  rest : list N;
  caps : list (nat * list N);
}.

(** [^] with MULTILINE matches at the start of the string and just after
    each newline. *)
Definition at_bol (l : list N) : bool :=
  match l with
  | [] => true
  | c :: _ => (c =? LF)%N
  end.

Fixpoint strip_prefix (s t : list N) : option (list N) :=
  match s with
  | [] => Some t
  | a :: s' =>
    match t with
    | c :: t' => if (c =? a)%N then strip_prefix s' t' else None
    | [] => None
    end
  end.

(** Zero or more further characters of class [p], the longest run first,
    giving characters back while the continuation fails. *)
Fixpoint rep_greedy {R} (p : N → bool) (l t : list N)
    (k : list N → list N → option R) : option R :=
  match t with
  | c :: t' =>
    if p c then
      match rep_greedy p (c :: l) t' k with
      | Some r => Some r
      | None => k l t
      end
    else k l t
  | [] => k l t
  end.

(** The text consumed between two states of one match attempt. *)
Definition consumed (st st' : mstate) : list N :=
  reverse (take (length (seen st') - length (seen st)) (seen st')).

(** Backtracking matcher in continuation-passing style: [rmatch r st k]
    matches [r] at the cursor of [st] and passes the state reached to [k];
    when [k] fails the next way of matching [r] is tried. *)
Fixpoint rmatch (r : regex) (st : mstate) (k : mstate → option mstate)
    : option mstate :=
  match r with
  | AtBeginningLine => if at_bol (seen st) then k st else None
  | Literal s =>
    match strip_prefix s (rest st) with
    | Some t' => k (MState (reverse s ++ seen st) t' (caps st))
    | None => None
    end
  | MaxRepeat1 p =>
    match rest st with
    | c :: t' =>
      if p c then
        rep_greedy p (c :: seen st) t' (λ l t, k (MState l t (caps st)))
      else None
    | [] => None
    end
  | Branch r1 r2 =>
    match rmatch r1 st k with
    | Some res => Some res
    | None => rmatch r2 st k
    end
  | Subpattern i r' =>
    rmatch r' st
      (λ st', k (MState (seen st') (rest st') ((i, consumed st st') :: caps st')))
  | Seq r1 r2 => rmatch r1 st (λ st', rmatch r2 st' k)
  end.

(** Number of capturing groups of a pattern ([pattern.groups]). *)
Fixpoint groups (r : regex) : nat :=
  match r with
  | AtBeginningLine | Literal _ | MaxRepeat1 _ => 0
  | Branch r1 r2 | Seq r1 r2 => groups r1 + groups r2
  | Subpattern _ r' => S (groups r')
  end.

(** Leftmost match: the attempt is made at every position from the left,
    the end of the string included.  The result is the reversed text left
    of the match and the state at its end. *)
Fixpoint search (r : regex) (l t : list N) : option (list N * mstate) :=
  match rmatch r (MState l t []) Some with
  | Some st => Some (l, st)
  | None =>
    match t with
    | c :: t' => search r (c :: l) t'
    | [] => None
    end
  end.

(** *** Replacement templates ([re._parser.parse_template], Python 3.12) *)

Inductive titem :=
| TLiteral (c : N)
| TGroup (i : nat).

Definition is_digit (c : N) : bool := ((48 <=? c) && (c <=? 57))%N.
Definition is_octdigit (c : N) : bool := ((48 <=? c) && (c <=? 55))%N.
Definition is_ascii_letter (c : N) : bool :=
  ((65 <=? c) && (c <=? 90) || (97 <=? c) && (c <=? 122))%N.
Definition digit_val (c : N) : nat := N.to_nat (c - 48).
Definition decimal (ds : list N) : nat :=
  foldl (λ acc d, 10 * acc + digit_val d)%nat 0%nat ds.

(** [ESCAPES]: a, b, f, n, r, t, v and the backslash itself. *)
Definition escape_char (c : N) : option N :=
  if (c =? 97)%N then Some 7%N else
  if (c =? 98)%N then Some 8%N else
  if (c =? 102)%N then Some 12%N else
  if (c =? 110)%N then Some 10%N else
  if (c =? 114)%N then Some 13%N else
  if (c =? 116)%N then Some 9%N else
  if (c =? 118)%N then Some 11%N else
  if (c =? BACKSLASH)%N then Some BACKSLASH else None.

(** [addgroup]: a reference to a group the pattern does not have is an
    error. *)
Definition add_group (ngroups i : nat) : result (list titem) :=
  if (i <=? ngroups)%nat then Ok [TGroup i] else Raise TemplateError.

(** [Tokenizer.getuntil]: the text before the first [term]. *)
Fixpoint getuntil (term : N) (u : list N) : option (list N) :=
  match u with
  | [] => None
  | c :: u' => if (c =? term)%N then Some [] else (c ::.) <$> getuntil term u'
  end.

(** One escape: [u] is the text after the backslash.  Returns the items
    produced and how many characters of [u] were read. *)
Definition parse_escape (ngroups : nat) (u : list N)
    : result (list titem * nat) :=
  match u with
  | [] => Raise TemplateError                       (* bad escape (end of pattern) *)
  | c :: u1 =>
    if (c =? 103)%N then                             (* \g<number> *)
      match u1 with
      | lt :: u2 =>
        if (lt =? 60)%N then
          match getuntil 62 u2 with
          | None => Raise TemplateError             (* missing > *)
          | Some name =>
            if forallb is_digit name && negb (bool_decide (name = [])) then
              match add_group ngroups (decimal name) with
              | Ok items => Ok (items, (3 + length name)%nat)
              | Raise e => Raise e
              end
            else Raise TemplateError                (* no named groups *)
          end
        else Raise TemplateError                    (* missing < *)
      | [] => Raise TemplateError
      end
    else if (c =? 48)%N then                         (* \0, \0o, \0oo *)
      match u1 with
      | d1 :: u2 =>
        if is_octdigit d1 then
          match u2 with
          | d2 :: _ =>
            if is_octdigit d2 then
              Ok ([TLiteral (N.of_nat (8 * digit_val d1 + digit_val d2) mod 256)], 3%nat)
            else Ok ([TLiteral (N.of_nat (digit_val d1))], 2%nat)
          | [] => Ok ([TLiteral (N.of_nat (digit_val d1))], 2%nat)
          end
        else Ok ([TLiteral 0%N], 1%nat)
      | [] => Ok ([TLiteral 0%N], 1%nat)
      end
    else if is_digit c then                          (* \d, \dd, \ooo *)
      let one :=
        match add_group ngroups (digit_val c) with
        | Ok items => Ok (items, 1%nat)
        | Raise e => Raise e
        end in
      match u1 with
      | d :: u2 =>
        if is_digit d then
          let octal3 :=
            match u2 with
            | e :: _ => is_octdigit c && is_octdigit d && is_octdigit e
            | [] => false
            end in
          if octal3 then
            let v := (64 * digit_val c + 8 * digit_val d
                      + digit_val (default 48%N (head u2)))%nat in
            if (v <=? 255)%nat then Ok ([TLiteral (N.of_nat v)], 3%nat)
            else Raise TemplateError                (* octal escape out of range *)
          else
            match add_group ngroups (10 * digit_val c + digit_val d) with
            | Ok items => Ok (items, 2%nat)
            | Raise e => Raise e
            end
        else one
      | [] => one
      end
    else
      match escape_char c with
      | Some x => Ok ([TLiteral x], 1%nat)
      | None =>
        if is_ascii_letter c then Raise TemplateError   (* bad escape *)
        else Ok ([TLiteral BACKSLASH; TLiteral c], 1%nat)
      end
  end.

(** The template, left to right; [skip] counts the characters already
    read as part of an escape. *)
Fixpoint parse_template (ngroups skip : nat) (t : list N)
    : result (list titem) :=
  match t with
  | [] => Ok []
  | c :: t' =>
    match skip with
    | S n => parse_template ngroups n t'
    | O =>
      if (c =? BACKSLASH)%N then
        match parse_escape ngroups t' with
        | Ok (items, n) =>
          match parse_template ngroups n t' with
          | Ok more => Ok (items ++ more)
          | Raise e => Raise e
          end
        | Raise e => Raise e
        end
      else
        match parse_template ngroups 0 t' with
        | Ok more => Ok (TLiteral c :: more)
        | Raise e => Raise e
        end
    end
  end.

(** A replacement without a backslash is used as it is; any other is
    handed to the template compiler, before the search starts. *)
Definition compile_template (r : regex) (repl : list N) : result (list titem) :=
  if contains BACKSLASH repl then parse_template (groups r) 0 repl
  else Ok (TLiteral <$> repl).

Fixpoint group_text (i : nat) (cs : list (nat * list N)) : list N :=
  match cs with
  | [] => []
  | (j, m) :: cs' => if (i =? j)%nat then m else group_text i cs'
  end.

Definition expand (tpl : list titem) (whole : list N)
    (cs : list (nat * list N)) : list N :=
  mjoin ((λ it, match it with
                | TLiteral c => [c]
                | TGroup O => whole
                | TGroup i => group_text i cs
                end) <$> tpl).

(** [re.sub(r, repl, s, count=1)]: the leftmost match, if there is one, is
    replaced by the expansion of [repl]; the text around it is kept. *)
Definition sub_count1 (r : regex) (repl s : list N) : result (list N) :=
  match compile_template r repl with
  | Raise e => Raise e
  | Ok tpl =>
    match search r [] s with
    | None => Ok s
    | Some (l, st) =>
      Ok (reverse l ++ expand tpl (consumed (MState l [] []) st) (caps st)
          ++ rest st)
    end
  end.

End Re.

(** ** The file system and the console *)

Module Os.

(** What a path names.  A directory lists the names of its entries, in
    the order [os.listdir] returns them. *)
Inductive node :=
| File (data : list N)
| Dir (entries : list (list N)).

(** The calls made to the file system, for the claims on what is touched. *)
Inductive syscall :=
| Exists (path : list N)
| Listdir (path : list N)
| OpenRead (path : list N)
| OpenWrite (path : list N).

(** The lines the script prints. *)
Inductive line :=
| Banner
| Progress (relative_path new_package : list N)
| Updated (relative_path file : list N)
| Total (n : nat).

(** [files] maps a path, as handed to the operating system, to what it
    names; [trace] and [stdout] grow at the head. *)
Record world := World {
  files : gmap (list N) node;
  trace : list syscall;
  stdout : list line;
}.

(** A computation of the script: it may change the world and either
    returns or raises; what was done before an exception stays done. *)
Definition io (A : Type) : Type := world → result A * world.

Definition ret {A} (a : A) : io A := λ w, (Ok a, w).

Definition bind {A B} (m : io A) (f : A → io B) : io B :=
  λ w, match m w with
       | (Ok a, w') => f a w'
       | (Raise e, w') => (Raise e, w')
       end.

Definition lift {A} (r : result A) : io A := λ w, (r, w).

Definition log (c : syscall) (w : world) : world :=
  World (files w) (c :: trace w) (stdout w).

Definition print (l : line) : io unit :=
  λ w, (Ok (), World (files w) (trace w) (l :: stdout w)).

(** [posixpath.join(a, b)] *)
Definition path_join (a b : list N) : list N :=
  if startswith b [SLASH] then b
  else if bool_decide (a = []) || endswith a [SLASH] then a ++ b
  else a ++ [SLASH] ++ b.

(** [os.path.exists] *)
Definition path_exists (path : list N) : io bool :=
  λ w, (Ok (match files w !! path with Some _ => true | None => false end),
        log (Exists path) w).

(** [os.listdir] *)
Definition listdir (path : list N) : io (list (list N)) :=
  λ w, (match files w !! path with
        | Some (Dir entries) => Ok entries
        | Some (File _) => Raise NotADirectoryError
        | None => Raise FileNotFoundError
        end, log (Listdir path) w).

(** Reading in text mode with [newline=None]: the sequences CR LF and the
    lone CR are handed to the program as LF. *)
Fixpoint universal_newlines (t : list N) : list N :=
  match t with
  | [] => []
  | c :: t' =>
    if (c =? CR)%N then
      LF :: match t' with
            | d :: t'' =>
              if (d =? LF)%N then universal_newlines t'' else universal_newlines t'
            | [] => []
            end
    else c :: universal_newlines t'
  end.

(** [os.linesep]; the script's base path is a POSIX one. *)
Definition linesep : list N := [LF].

(** Writing in text mode with [newline=None]: each LF becomes
    [os.linesep]. *)
Definition newlines_out (t : list N) : list N :=
  mjoin ((λ c, if (c =? LF)%N then linesep else [c]) <$> t).

(** [with open(path, 'r', encoding='utf-8') as f: f.read()] *)
Definition read_text (path : list N) : io (list N) :=
  λ w, (match files w !! path with
        | Some (File data) => Ok (universal_newlines data)
        | Some (Dir _) => Raise IsADirectoryError
        | None => Raise FileNotFoundError
        end, log (OpenRead path) w).

(** The code points UTF-8 encodes: every code point up to U+10FFFF but
    the surrogates U+D800 to U+DFFF. *)
Definition is_scalar (c : N) : bool :=
  ((c <? 55296) || (57343 <? c) && (c <=? 1114111))%N.

Definition encodable (s : list N) : bool := forallb is_scalar s.

(** [with open(path, 'w', encoding='utf-8') as f: f.write(s)]: opening
    empties the file; [f.write] encodes the whole text first and raises if
    it cannot, so that the file is then left empty. *)
Definition write_text (path s : list N) : io unit :=
  λ w, match files w !! path with
       | Some (Dir _) => (Raise IsADirectoryError, log (OpenWrite path) w)
       | _ =>
         if encodable s then
           (Ok (), World (<[path := File (newlines_out s)]> (files w))
                         (OpenWrite path :: trace w) (stdout w))
         else
           (Raise UnicodeEncodeError,
            World (<[path := File []]> (files w))
                  (OpenWrite path :: trace w) (stdout w))
       end.

End Os.

Import Re Os.

Notation "'let*' x ':=' m 'in' k" := (bind m (λ x, k))
  (at level 10, x name, m at level 100, k at level 200).
Notation "m ';;' k" := (bind m (λ _, k))
  (at level 100, k at level 200, right associativity).

(** ** The script *)

(** [PACKAGE_MAPPINGS], in the insertion order of the dict literal. *)
Definition PACKAGE_MAPPINGS : list (list N * list N) :=
  [ (str "domain", str "org.lareferencia.core.domain");
    (str "repository/jpa", str "org.lareferencia.core.repository.jpa");
    (str "repository/parquet", str "org.lareferencia.core.repository.parquet");
    (str "service/harvesting", str "org.lareferencia.core.service.harvesting");
    (str "service/validation", str "org.lareferencia.core.service.validation");
    (str "service/indexing", str "org.lareferencia.core.service.indexing");
    (str "service/management", str "org.lareferencia.core.service.management");
    (str "worker/harvesting", str "org.lareferencia.core.worker.harvesting");
    (str "worker/validation", str "org.lareferencia.core.worker.validation");
    (str "worker/validation/validator",
     str "org.lareferencia.core.worker.validation.validator");
    (str "worker/validation/transformer",
     str "org.lareferencia.core.worker.validation.transformer");
    (str "worker/indexing", str "org.lareferencia.core.worker.indexing");
    (str "worker/management", str "org.lareferencia.core.worker.management");
    (str "task", str "org.lareferencia.core.task") ].

(** [r'^package\s+org\.lareferencia\.(backend|core)\.[^;]+;'] with
    [flags=re.MULTILINE] *)
Definition pattern : regex :=
  AtBeginningLine ⋅ Literal (str "package") ⋅ MaxRepeat1 uni_isspace
  ⋅ Literal (str "org.lareferencia.")
  ⋅ Subpattern 1 (Branch (Literal (str "backend")) (Literal (str "core")))
  ⋅ Literal (str ".") ⋅ MaxRepeat1 not_semicolon ⋅ Literal (str ";").

(** [f'package {new_package};'] *)
Definition replacement (new_package : list N) : list N :=
  str "package " ++ new_package ++ str ";".

Definition update_package_declaration (file_path new_package : list N)
    : io bool :=
  let* content := read_text file_path in
  let* new_content := lift (sub_count1 pattern (replacement new_package) content) in
  if negb (bool_decide (new_content = content)) then
    write_text file_path new_content ;;
    ret true
  else ret false.

(** The [for file in os.listdir(full_path)] loop, [count] being the
    running count. *)
Fixpoint process_files (full_path relative_path new_package : list N)
    (listing : list (list N)) (count : nat) : io nat :=
  match listing with
  | [] => ret count
  | file :: listing' =>
    if endswith file (str ".java") then
      let file_path := path_join full_path file in
      let* updated := update_package_declaration file_path new_package in
      if updated then
        print (Updated relative_path file) ;;
        process_files full_path relative_path new_package listing' (count + 1)
      else process_files full_path relative_path new_package listing' count
    else process_files full_path relative_path new_package listing' count
  end.

Definition process_directory (base_path relative_path new_package : list N)
    : io nat :=
  let full_path := path_join base_path relative_path in
  let* found := path_exists full_path in
  if negb found then ret 0
  else
    let* listing := listdir full_path in
    process_files full_path relative_path new_package listing 0.

Definition base_path : list N :=
  str "/Users/lmatas/source/lareferencia-platform/lareferencia-core-lib/src/main/java/org/lareferencia/core".

(** The [for relative_path, new_package in PACKAGE_MAPPINGS.items()] loop. *)
Fixpoint main_loop (mappings : list (list N * list N)) (total_updated : nat)
    : io nat :=
  match mappings with
  | [] => ret total_updated
  | (relative_path, new_package) :: mappings' =>
    print (Progress relative_path new_package) ;;
    let* count := process_directory base_path relative_path new_package in
    main_loop mappings' (total_updated + count)
  end.

Definition main : io unit :=
  print Banner ;;
  let* total_updated := main_loop PACKAGE_MAPPINGS 0 in
  print (Total total_updated).

(** ** Vocabulary of the specification *)

(** A package declaration as the specification describes it: [package],
    whitespace, [org.lareferencia.], [backend] or [core], a dot, at least
    one character other than a semicolon, and a semicolon. *)
Definition pkg_line (m : list N) : Prop :=
  ∃ ws seg tail,
    m = str "package" ++ ws ++ str "org.lareferencia." ++ seg ++ str "."
        ++ tail ++ str ";"
    ∧ ws ≠ [] ∧ Forall (λ c, uni_isspace c = true) ws
    ∧ (seg = str "backend" ∨ seg = str "core")
    ∧ tail ≠ [] ∧ SEMI ∉ tail.

(** [pre] ends where a line starts. *)
Definition line_start (pre : list N) : Prop := pre = [] ∨ last pre = Some LF.

(** [m] is a match of the package pattern in [content], after [pre]. *)
Definition match_at (content pre m post : list N) : Prop :=
  content = pre ++ m ++ post ∧ line_start pre ∧ pkg_line m.

Definition has_match (content : list N) : Prop :=
  ∃ pre m post, match_at content pre m post.

(** The first match: no match starts further left. *)
Definition first_match (content pre m post : list N) : Prop :=
  match_at content pre m post
  ∧ ∀ pre' m' post', match_at content pre' m' post' → length pre ≤ length pre'.

(** Targets for which [package <target>;] is itself, in full, a match of
    the pattern: [org.lareferencia.], then [backend] or [core], a dot and
    something more, with no semicolon, backslash or carriage return. *)
Definition self_matching (new_package : list N) : bool :=
  match strip_prefix (str "org.lareferencia.") new_package with
  | Some q =>
    match match strip_prefix (str "backend.") q with
          | Some tail => Some tail
          | None => strip_prefix (str "core.") q
          end with
    | Some tail => negb (bool_decide (tail = []))
    | None => false
    end
  | None => false
  end
  && negb (contains SEMI new_package)
  && negb (contains BACKSLASH new_package)
  && negb (contains CR new_package).

(** The entries of a directory, as [os.listdir] would return them. *)
Definition entries_of (w : world) (path : list N) : list (list N) :=
  match files w !! path with
  | Some (Dir entries) => entries
  | _ => []
  end.

(** The paths [process_directory] is to consider: the entries of the
    directory itself whose name ends with [.java]. *)
Definition considered (full_path : list N) (listing : list (list N))
    (q : list N) : Prop :=
  ∃ file, file ∈ listing ∧ endswith file (str ".java") = true
          ∧ q = path_join full_path file.

(** A plain entry name: not empty, without a slash. *)
Definition plain_name (name : list N) : Prop := name ≠ [] ∧ SLASH ∉ name.

(** The mapping entries processed one after the other, in the order of
    the list: each prints its progress line and calls [process_directory]
    on the world the previous one left; [counts] are the counts returned. *)
Inductive runs : list (list N * list N) → world → list nat → world → Prop :=
| runs_nil w : runs [] w [] w
| runs_cons relative_path new_package mappings w count w1 counts w2 :
    process_directory base_path relative_path new_package
      (World (files w) (trace w) (Progress relative_path new_package :: stdout w))
    = (Ok count, w1) →
    runs mappings w1 counts w2 →
    runs ((relative_path, new_package) :: mappings) w (count :: counts) w2.

(** ** Sample worlds *)

Definition sample_path : list N := str "/src/Foo.java".

(** A world with a single file, nothing traced or printed yet. *)
Definition one_file (data : list N) : world :=
  World {[ sample_path := File data ]} [] [].

(** A source tree with the [domain] directory only: one Java file still
    in the old package, and one file that is not a Java source. *)
Definition sample_tree : world :=
  World {[ path_join base_path (str "domain")
             := Dir [str "Foo.java"; str "notes.txt"];
           path_join (path_join base_path (str "domain")) (str "Foo.java")
             := File (str "package org.lareferencia.backend.domain;" ++ [LF]
                      ++ str "public class Foo {}" ++ [LF]);
           path_join (path_join base_path (str "domain")) (str "notes.txt")
             := File (str "package org.lareferencia.backend.domain;" ++ [LF]) ]}
        [] [].

(** * Verification *)

Arguments str : simpl never.

(** ** The engine *)

Section engine.
Implicit Types (l t s m pre post : list N) (st res : mstate) (r : regex).
Implicit Types (k : mstate → option mstate).

Lemma strip_prefix_Some s t t' : strip_prefix s t = Some t' ↔ t = s ++ t'.
Proof.
  revert t. induction s as [|a s IH]; intros t; simpl.
  - split; [by intros [= ->] | by intros ->].
  - destruct t as [|c t]; [by split|].
    destruct (N.eqb_spec c a) as [->|Hne].
    + rewrite IH. split; [by intros -> | by intros [= ->]].
    + split; [done | by intros [= ? _]].
Qed.

Lemma strip_prefix_app s t : strip_prefix s (s ++ t) = Some t.
Proof. by apply strip_prefix_Some. Qed.

Lemma strip_prefix_head_ne a s c t : c ≠ a → strip_prefix (a :: s) (c :: t) = None.
Proof. intros Hne. simpl. by destruct (N.eqb_spec c a). Qed.

Lemma rep_greedy_inv {R} p l t (k : list N → list N → option R) x :
  rep_greedy p l t k = Some x →
  ∃ ws t', t = ws ++ t' ∧ Forall (λ c, p c = true) ws
           ∧ k (reverse ws ++ l) t' = Some x.
Proof.
  revert l. induction t as [|c t IH]; intros l; simpl.
  - intros Hk. by exists [], [].
  - destruct (p c) eqn:Hp; [|intros Hk; by exists [], (c :: t)].
    destruct (rep_greedy p (c :: l) t k) as [y|] eqn:Hr.
    + intros [= ->]. apply IH in Hr as (ws & t' & -> & Hws & Hk).
      exists (c :: ws), t'. split; [done|]. split; [by constructor|].
      by rewrite reverse_cons, <-app_assoc.
    + intros Hk. by exists [], (c :: t).
Qed.

(** A continuation that fails on every text starting inside the class
    never makes the loop give a character back: the whole run is taken. *)
Lemma rep_greedy_run {R} p l ws t (k : list N → list N → option R) :
  Forall (λ c, p c = true) ws →
  (∀ l' c t', p c = true → k l' (c :: t') = None) →
  (∀ c t', t = c :: t' → p c = false) →
  rep_greedy p l (ws ++ t) k = k (reverse ws ++ l) t.
Proof.
  intros Hws Hk Ht. revert l.
  induction Hws as [|c ws Hc _ IH]; intros l; simpl.
  - destruct t as [|c t']; [done|]. simpl. by rewrite (Ht c t').
  - rewrite Hc, IH, reverse_cons, <-app_assoc. simpl.
    destruct (k _ t) eqn:E; [done|]. by apply Hk.
Qed.

(** Inversion of one matching step. *)
Lemma rmatch_bol_inv st k res :
  rmatch AtBeginningLine st k = Some res →
  at_bol (seen st) = true ∧ k st = Some res.
Proof. simpl. by destruct (at_bol _). Qed.

Lemma rmatch_literal_inv s st k res :
  rmatch (Literal s) st k = Some res →
  ∃ t', rest st = s ++ t'
        ∧ k (MState (reverse s ++ seen st) t' (caps st)) = Some res.
Proof.
  simpl. destruct (strip_prefix s (rest st)) as [t'|] eqn:E; [|done].
  apply strip_prefix_Some in E. eauto.
Qed.

Lemma rmatch_repeat_inv p st k res :
  rmatch (MaxRepeat1 p) st k = Some res →
  ∃ ws t', ws ≠ [] ∧ Forall (λ c, p c = true) ws ∧ rest st = ws ++ t'
           ∧ k (MState (reverse ws ++ seen st) t' (caps st)) = Some res.
Proof.
  simpl. destruct (rest st) as [|c t]; [done|].
  destruct (p c) eqn:Hc; [|done].
  intros (ws & t' & -> & Hws & Hk)%rep_greedy_inv.
  exists (c :: ws), t'. split; [done|]. split; [by constructor|].
  split; [done|]. by rewrite reverse_cons, <-app_assoc.
Qed.

Lemma rmatch_branch_inv r1 r2 st k res :
  rmatch (Branch r1 r2) st k = Some res →
  rmatch r1 st k = Some res ∨ rmatch r2 st k = Some res.
Proof. simpl. destruct (rmatch r1 st k); [intros [= ->]|]; eauto. Qed.

(** Forward steps. *)
Lemma rmatch_literal_app s t' st k :
  rest st = s ++ t' →
  rmatch (Literal s) st k = k (MState (reverse s ++ seen st) t' (caps st)).
Proof. intros E. simpl. by rewrite E, strip_prefix_app. Qed.

Lemma rmatch_repeat_run p ws t' st k :
  ws ≠ [] → Forall (λ c, p c = true) ws → rest st = ws ++ t' →
  (∀ l' c u cs, p c = true → k (MState l' (c :: u) cs) = None) →
  (∀ c u, t' = c :: u → p c = false) →
  rmatch (MaxRepeat1 p) st k
  = k (MState (reverse ws ++ seen st) t' (caps st)).
Proof.
  intros Hne Hws E Hk Ht. destruct Hws as [|c ws Hc Hws]; [done|].
  simpl. rewrite E. simpl. rewrite Hc, rep_greedy_run; [|done|by eauto|done].
  by rewrite reverse_cons, <-app_assoc.
Qed.

(** [search] finds the leftmost position where the match attempt works. *)
Lemma search_Some r l s l0 st :
  search r l s = Some (l0, st) →
  ∃ pre t, s = pre ++ t ∧ l0 = reverse pre ++ l
    ∧ rmatch r (MState l0 t []) Some = Some st
    ∧ ∀ a b, pre = a ++ b → b ≠ [] →
        rmatch r (MState (reverse a ++ l) (b ++ t) []) Some = None.
Proof.
  revert l. induction s as [|c s IH]; intros l; simpl.
  - destruct (rmatch r (MState l [] []) Some) as [st'|] eqn:E; [|done].
    intros [= <- <-]. exists [], []. repeat split; [done|].
    intros a b Hab. by destruct a, b.
  - destruct (rmatch r (MState l (c :: s) []) Some) as [st'|] eqn:E.
    + intros [= <- <-]. exists [], (c :: s). repeat split; [done|].
      intros a b Hab. by destruct a, b.
    + intros (pre & t & -> & -> & Hm & Hfirst)%IH.
      exists (c :: pre), t. split; [done|].
      split; [by rewrite reverse_cons, <-app_assoc|]. split; [done|].
      intros [|a0 a] b Hab Hb; simpl in Hab.
      * subst b. by rewrite reverse_nil.
      * injection Hab as <- ->.
        rewrite reverse_cons, <-app_assoc. by apply Hfirst.
Qed.

Lemma search_None r l s :
  search r l s = None →
  ∀ a b, s = a ++ b → rmatch r (MState (reverse a ++ l) b []) Some = None.
Proof.
  revert l. induction s as [|c s IH]; intros l; simpl.
  - destruct (rmatch r (MState l [] []) Some) eqn:E; [done|].
    intros _ a b Hab. by destruct a, b.
  - destruct (rmatch r (MState l (c :: s) []) Some) eqn:E; [done|].
    intros Hs [|a0 a] b Hab; simpl in Hab.
    + by subst b.
    + injection Hab as <- ->. rewrite reverse_cons, <-app_assoc.
      by apply (IH (c :: l)).
Qed.

Lemma search_first r l pre t st :
  (∀ a b, pre = a ++ b → b ≠ [] →
     rmatch r (MState (reverse a ++ l) (b ++ t) []) Some = None) →
  rmatch r (MState (reverse pre ++ l) t []) Some = Some st →
  search r l (pre ++ t) = Some (reverse pre ++ l, st).
Proof.
  revert l. induction pre as [|c pre IH]; intros l Hfirst Hm.
  - rewrite reverse_nil in *. simpl in *. destruct t; simpl; by rewrite Hm.
  - pose proof (Hfirst [] (c :: pre) eq_refl ltac:(done)) as H0.
    rewrite reverse_nil in H0. simpl in *. rewrite H0.
    rewrite reverse_cons, <-app_assoc in *. apply IH; [|done].
    intros a b -> Hb. specialize (Hfirst (c :: a) b).
    rewrite reverse_cons, <-app_assoc in Hfirst. by apply Hfirst.
Qed.

Lemma search_absent r l s :
  (∀ a b, s = a ++ b → rmatch r (MState (reverse a ++ l) b []) Some = None) →
  search r l s = None.
Proof.
  revert l. induction s as [|c s IH]; intros l Hno; simpl.
  - pose proof (Hno [] [] eq_refl) as H0. rewrite reverse_nil in H0.
    simpl in H0. by rewrite H0.
  - pose proof (Hno [] (c :: s) eq_refl) as H0. rewrite reverse_nil in H0.
    simpl in H0. rewrite H0. apply IH. intros a b ->.
    specialize (Hno (c :: a) b). rewrite reverse_cons, <-app_assoc in Hno.
    by apply Hno.
Qed.

(** Replacements without a backslash are inserted as they are. *)
Lemma expand_literal repl whole cs : expand (TLiteral <$> repl) whole cs = repl.
Proof.
  unfold expand. induction repl as [|c repl IH]; [done|].
  simpl. by f_equal.
Qed.

Lemma sub_count1_literal r repl s :
  contains BACKSLASH repl = false →
  sub_count1 r repl s
  = Ok (match search r [] s with
        | None => s
        | Some (l, st) => reverse l ++ repl ++ rest st
        end).
Proof.
  intros Hlit. unfold sub_count1, compile_template. rewrite Hlit.
  destruct (search r [] s) as [[l st]|]; [|done]. by rewrite expand_literal.
Qed.

End engine.

(** ** The package pattern *)

Section package_pattern.
Implicit Types (l t s m pre post : list N) (st res : mstate).
Implicit Types (k : mstate → option mstate).

Lemma rmatch_seq r1 r2 st k :
  rmatch (r1 ⋅ r2) st k = rmatch r1 st (λ st', rmatch r2 st' k).
Proof. done. Qed.

Lemma rmatch_group i r st k :
  rmatch (Subpattern i r) st k
  = rmatch r st (λ st', k (MState (seen st') (rest st')
                                  ((i, consumed st st') :: caps st'))).
Proof. done. Qed.

Lemma rmatch_bol st k :
  at_bol (seen st) = true → rmatch AtBeginningLine st k = k st.
Proof. simpl. by intros ->. Qed.

Lemma rmatch_branch_l r1 r2 st k res :
  rmatch r1 st k = Some res → rmatch (Branch r1 r2) st k = Some res.
Proof. simpl. by intros ->. Qed.

Lemma rmatch_branch_r r1 r2 st k :
  rmatch r1 st k = None → rmatch (Branch r1 r2) st k = rmatch r2 st k.
Proof. simpl. by intros ->. Qed.

Lemma strip_prefix_head s a c t :
  head s = Some a → c ≠ a → strip_prefix s (c :: t) = None.
Proof. destruct s; intros [= ->]. apply strip_prefix_head_ne. Qed.

Lemma rmatch_literal_head s a l c u cs k :
  head s = Some a → c ≠ a → rmatch (Literal s) (MState l (c :: u) cs) k = None.
Proof.
  intros Hs Hne. cbn [rmatch rest]. by rewrite (strip_prefix_head _ a).
Qed.

Lemma strip_backend_core x : strip_prefix (str "backend") (str "core" ++ x) = None.
Proof. reflexivity. Qed.

Lemma strip_core_backend x : strip_prefix (str "core") (str "backend" ++ x) = None.
Proof. reflexivity. Qed.

Lemma head_app_eq s a x c u : head s = Some a → s ++ x = c :: u → c = a.
Proof. destruct s; intros [= ->] [= -> _]. done. Qed.

Lemma not_semicolon_Forall tail :
  Forall (λ c, not_semicolon c = true) tail ↔ SEMI ∉ tail.
Proof.
  unfold not_semicolon. induction tail as [|c tail IH].
  - split; [intros _; apply not_elem_of_nil | constructor].
  - rewrite Forall_cons, IH, not_elem_of_cons.
    destruct (N.eqb_spec c SEMI); split; intros [? ?]; try done;
      split; try done; congruence.
Qed.

Lemma at_bol_line_start pre : at_bol (reverse pre) = true ↔ line_start pre.
Proof.
  unfold line_start. destruct pre as [|c pre _] using rev_ind.
  - split; [by left | done].
  - rewrite reverse_snoc, last_snoc. simpl.
    destruct (N.eqb_spec c LF) as [->|Hc]; split; try done.
    + by right.
    + intros [E|[=]]; [by destruct pre | done].
Qed.

Lemma pattern_sound l t st :
  rmatch pattern (MState l t []) Some = Some st →
  at_bol l = true
  ∧ ∃ m, pkg_line m ∧ t = m ++ rest st ∧ seen st = reverse m ++ l.
Proof.
  unfold pattern. intros H.
  rewrite rmatch_seq in H. apply rmatch_bol_inv in H as [Hbol H].
  rewrite rmatch_seq in H.
  apply rmatch_literal_inv in H as (t1 & E1 & H); cbn [seen rest caps] in E1, H.
  rewrite rmatch_seq in H.
  apply rmatch_repeat_inv in H as (ws & t2 & Hws0 & Hws & E2 & H);
    cbn [seen rest caps] in E2, H.
  rewrite rmatch_seq in H.
  apply rmatch_literal_inv in H as (t3 & E3 & H); cbn [seen rest caps] in E3, H.
  rewrite rmatch_seq, rmatch_group in H.
  assert (∃ seg t4, (seg = str "backend" ∨ seg = str "core") ∧ t3 = seg ++ t4
    ∧ ∃ cs, rmatch (Literal (str ".") ⋅ MaxRepeat1 not_semicolon
                    ⋅ Literal (str ";"))
              (MState (reverse seg ++ reverse (str "org.lareferencia.")
                       ++ reverse ws ++ reverse (str "package") ++ l) t4 cs)
              Some = Some st) as (seg & t4 & Hseg & E4 & cs & H').
  { apply rmatch_branch_inv in H as [H|H];
      apply rmatch_literal_inv in H as (t4 & E4 & H); cbn [seen rest caps] in E4, H; eauto 10. }
  clear H. rename H' into H.
  rewrite rmatch_seq in H.
  apply rmatch_literal_inv in H as (t5 & E5 & H); cbn [seen rest caps] in E5, H.
  rewrite rmatch_seq in H.
  apply rmatch_repeat_inv in H as (tail & t6 & Htail0 & Htail & E6 & H);
    cbn [seen rest caps] in E6, H.
  apply rmatch_literal_inv in H as (t7 & E7 & H); cbn [seen rest caps] in E7, H.
  injection H as <-. simpl. subst.
  split; [done|].
  exists (str "package" ++ ws ++ str "org.lareferencia." ++ seg ++ str "."
          ++ tail ++ str ";").
  split.
  - exists ws, seg, tail. by rewrite <-not_semicolon_Forall.
  - rewrite !reverse_app, <-!app_assoc. done.
Qed.

Lemma pattern_complete l m post :
  at_bol l = true → pkg_line m →
  ∃ cs, rmatch pattern (MState l (m ++ post) []) Some
        = Some (MState (reverse m ++ l) post cs).
Proof.
  intros Hbol (ws & seg & tail & -> & Hws0 & Hws & Hseg & Htail0 & Htail).
  apply not_semicolon_Forall in Htail.
  unfold pattern. rewrite <-!app_assoc.
  rewrite rmatch_seq, rmatch_bol by done.
  rewrite rmatch_seq. erewrite rmatch_literal_app by reflexivity. cbn [seen rest caps].
  rewrite rmatch_seq. erewrite (rmatch_repeat_run _ ws); [|done|done|reflexivity|..].
  2:{ intros l' c u cs Hc. rewrite rmatch_seq.
      apply (rmatch_literal_head _ 111%N); [done|]. by intros ->. }
  2:{ intros c u E. apply (head_app_eq _ 111%N) in E as ->; done. }
  cbn [seen rest caps].
  rewrite rmatch_seq. erewrite rmatch_literal_app by reflexivity. cbn [seen rest caps].
  rewrite rmatch_seq, rmatch_group.
  assert (∀ k, rmatch (Branch (Literal (str "backend")) (Literal (str "core")))
      (MState (reverse (str "org.lareferencia.") ++ reverse ws
               ++ reverse (str "package") ++ l)
         (seg ++ str "." ++ tail ++ str ";" ++ post) []) k
    = k (MState (reverse seg ++ reverse (str "org.lareferencia.")
                 ++ reverse ws ++ reverse (str "package") ++ l)
           (str "." ++ tail ++ str ";" ++ post) [])) as ->.
  { intros k. destruct Hseg as [-> | ->]; cbn [rmatch seen rest caps].
    - rewrite strip_prefix_app, strip_core_backend. by destruct (k _).
    - by rewrite strip_backend_core, strip_prefix_app. }
  cbv beta. cbn [seen rest caps].
  rewrite rmatch_seq. erewrite rmatch_literal_app by reflexivity. cbn [seen rest caps].
  rewrite rmatch_seq. erewrite (rmatch_repeat_run _ tail); [|done|done|reflexivity|..].
  2:{ intros l' c u cs Hc.
      apply (rmatch_literal_head _ SEMI); [done|]. by intros ->. }
  2:{ intros c u E. apply (head_app_eq _ SEMI) in E as ->; done. }
  cbn [rmatch seen rest caps]. rewrite strip_prefix_app.
  eexists. f_equal. f_equal. rewrite !reverse_app, <-!app_assoc. done.
Qed.

(** The engine agrees with the specification's description of a match. *)
Lemma attempt_Some pre t st :
  rmatch pattern (MState (reverse pre) t []) Some = Some st →
  ∃ m, match_at (pre ++ t) pre m (rest st) ∧ seen st = reverse m ++ reverse pre.
Proof.
  intros (Hbol & m & Hm & -> & Hseen)%pattern_sound.
  exists m. repeat split; [by apply at_bol_line_start|done..].
Qed.

Lemma attempt_match_at content pre m post :
  match_at content pre m post →
  ∃ cs, rmatch pattern (MState (reverse pre) (m ++ post) []) Some
        = Some (MState (reverse m ++ reverse pre) post cs).
Proof.
  intros (_ & Hpre & Hm). apply pattern_complete; [|done].
  by apply at_bol_line_start.
Qed.

Lemma search_pattern_Some content l0 st :
  search pattern [] content = Some (l0, st) →
  ∃ pre m, first_match content pre m (rest st)
           ∧ l0 = reverse pre ∧ seen st = reverse m ++ l0.
Proof.
  intros (pre & t & -> & -> & Hm & Hfirst)%search_Some.
  rewrite app_nil_r in *.
  apply attempt_Some in Hm as (m & Hm & Hseen).
  exists pre, m. split; [|done]. split; [done|].
  intros pre' m' post' Hm'. destruct (decide (length pre ≤ length pre')); [done|].
  exfalso. pose proof Hm' as (E & _).
  apply app_eq_app in E as (b & [[-> E]|[-> E]]).
  - destruct (attempt_match_at _ _ _ _ Hm') as (cs & Hatt).
    specialize (Hfirst pre' b eq_refl). rewrite app_nil_r, <-E, Hatt in Hfirst.
    destruct b; [|by specialize (Hfirst ltac:(done))].
    rewrite app_nil_r in *. lia.
  - rewrite length_app in *. lia.
Qed.

Lemma search_pattern_None content :
  search pattern [] content = None ↔ ¬ has_match content.
Proof.
  split.
  - intros Hs (pre & m & post & Hm). pose proof Hm as (-> & _).
    pose proof (search_None _ _ _ Hs pre (m ++ post) eq_refl) as Hno.
    apply attempt_match_at in Hm as (cs & Hatt).
    rewrite app_nil_r in Hno. by rewrite Hatt in Hno.
  - intros Hno. apply search_absent. intros a b ->. rewrite app_nil_r.
    destruct (rmatch _ _ _) as [st|] eqn:E; [|done].
    apply attempt_Some in E as (m & Hm & _). destruct Hno. by exists a, m, (rest st).
Qed.

Lemma search_first_match content pre m post :
  first_match content pre m post →
  ∃ cs, search pattern [] content
        = Some (reverse pre, MState (reverse m ++ reverse pre) post cs).
Proof.
  intros [Hm Hfirst]. pose proof Hm as (-> & _).
  destruct (attempt_match_at _ _ _ _ Hm) as (cs & Hatt). exists cs.
  rewrite <-(app_nil_r (reverse pre)) at 1.
  apply search_first; [|by rewrite app_nil_r].
  intros a b -> Hb. rewrite app_nil_r.
  destruct (rmatch pattern (MState (reverse a) (b ++ m ++ post) []) Some)
    as [st|] eqn:E; [|done].
  apply attempt_Some in E as (m' & Hm' & _).
  rewrite app_assoc in Hm'.
  apply Hfirst in Hm'. rewrite length_app in Hm'. destruct b; [done|].
  simpl in Hm'. lia.
Qed.

End package_pattern.

(** ** Text-mode reading and writing *)

Section text_io.
Implicit Types (t s : list N) (w : world).

Lemma contains_false c s : contains c s = false ↔ c ∉ s.
Proof.
  unfold contains. induction s as [|d s IH]; simpl.
  - split; [intros _; apply not_elem_of_nil | done].
  - rewrite orb_false_iff, IH, not_elem_of_cons.
    destruct (N.eqb_spec c d); split; intros [? ?]; done.
Qed.

Lemma universal_newlines_id t : CR ∉ t → universal_newlines t = t.
Proof.
  induction t as [|c t IH]; [done|].
  intros [Hc Ht]%not_elem_of_cons. simpl.
  destruct (N.eqb_spec c CR); [done|]. by rewrite IH.
Qed.

Lemma universal_newlines_no_CR t : CR ∉ universal_newlines t.
Proof.
  remember (length t) as n eqn:Hn. revert t Hn.
  induction n as [n IH] using lt_wf_ind. intros [|c t] ->.
  - apply not_elem_of_nil.
  - simpl. destruct (N.eqb_spec c CR) as [->|Hc].
    + apply not_elem_of_cons. split; [done|].
      destruct t as [|d t]; [apply not_elem_of_nil|].
      destruct (d =? LF)%N; eapply IH; try reflexivity; simpl; lia.
    + apply not_elem_of_cons. split; [done|].
      eapply IH; [|reflexivity]. simpl; lia.
Qed.

Lemma newlines_out_id t : newlines_out t = t.
Proof.
  induction t as [|c t IH]; [done|].
  change (newlines_out (c :: t))
    with ((if (c =? LF)%N then linesep else [c]) ++ newlines_out t).
  rewrite IH. by destruct (N.eqb_spec c LF) as [->|].
Qed.

Lemma replacement_literal p :
  contains BACKSLASH p = false → contains BACKSLASH (replacement p) = false.
Proof.
  unfold replacement, contains. intros Hp. by rewrite !existsb_app, Hp.
Qed.

(** What [update_package_declaration] does on a file, for a target without
    a backslash, in terms of the text as read. *)
Lemma update_as_read w file_path raw new_package :
  files w !! file_path = Some (File raw) →
  contains BACKSLASH new_package = false →
  update_package_declaration file_path new_package w
  = let content := universal_newlines raw in
    let new_content :=
      match search pattern [] content with
      | None => content
      | Some (l, st) => reverse l ++ replacement new_package ++ rest st
      end in
    if bool_decide (new_content = content) then (Ok false, log (OpenRead file_path) w)
    else if encodable new_content then
      (Ok true, World (<[file_path := File new_content]> (files w))
                      (OpenWrite file_path :: OpenRead file_path :: trace w)
                      (stdout w))
    else
      (Raise UnicodeEncodeError,
       World (<[file_path := File []]> (files w))
             (OpenWrite file_path :: OpenRead file_path :: trace w) (stdout w)).
Proof.
  intros Hfile Hlit. unfold update_package_declaration, bind, read_text, lift.
  rewrite Hfile, sub_count1_literal by by apply replacement_literal.
  cbv zeta. case_bool_decide; [done|]. cbn [negb].
  unfold write_text, bind, ret. cbn [files log]. rewrite Hfile.
  destruct (encodable _); [|done]. by rewrite newlines_out_id.
Qed.

End text_io.

(** ** Properties of the script *)

(** C1: on a file whose whole content is
    [package org.lareferencia.backend.domain.Foo;\n\npublic class Foo {}\n],
    [update_package_declaration] with the new package
    [org.lareferencia.core.domain] rewrites the content to exactly
    [package org.lareferencia.core.domain;\n\npublic class Foo {}\n] and
    returns true. *)
Theorem C1_example_rewritten w file_path :
  files w !! file_path
  = Some (File (str "package org.lareferencia.backend.domain.Foo;" ++ [LF; LF]
                ++ str "public class Foo {}" ++ [LF])) →
  ∃ w', update_package_declaration file_path (str "org.lareferencia.core.domain") w
        = (Ok true, w')
    ∧ files w'
      = <[file_path := File (str "package org.lareferencia.core.domain;"
                             ++ [LF; LF] ++ str "public class Foo {}" ++ [LF])]>
          (files w).
Proof.
  intros Hfile. rewrite (update_as_read _ _ _ _ Hfile) by reflexivity.
  cbv zeta.
  set (content := universal_newlines _).
  set (new_content := match search pattern [] content with
                      | None => _ | Some _ => _ end).
  assert (new_content
          = str "package org.lareferencia.core.domain;" ++ [LF; LF]
            ++ str "public class Foo {}" ++ [LF]) as -> by (vm_compute; reflexivity).
  rewrite bool_decide_eq_false_2 by (vm_compute; discriminate).
  eexists. split; reflexivity.
Qed.

Lemma C1_example_rewritten_witness :
  ∃ w', update_package_declaration sample_path (str "org.lareferencia.core.domain")
          (one_file (str "package org.lareferencia.backend.domain.Foo;"
                     ++ [LF; LF] ++ str "public class Foo {}" ++ [LF]))
        = (Ok true, w')
    ∧ files w'
      = <[sample_path := File (str "package org.lareferencia.core.domain;"
                               ++ [LF; LF] ++ str "public class Foo {}" ++ [LF])]>
          (files (one_file (str "package org.lareferencia.backend.domain.Foo;"
                            ++ [LF; LF] ++ str "public class Foo {}" ++ [LF]))).
Proof. apply C1_example_rewritten. vm_compute. reflexivity. Defined.

(** The first match decides what [update_package_declaration] does. *)
Lemma update_first_match w file_path raw new_package pre m post :
  files w !! file_path = Some (File raw) →
  contains BACKSLASH new_package = false →
  first_match (universal_newlines raw) pre m post →
  update_package_declaration file_path new_package w
  = if bool_decide (m = replacement new_package)
    then (Ok false, log (OpenRead file_path) w)
    else if encodable (pre ++ replacement new_package ++ post) then
      (Ok true,
       World (<[file_path := File (pre ++ replacement new_package ++ post)]>
                (files w))
             (OpenWrite file_path :: OpenRead file_path :: trace w) (stdout w))
    else
      (Raise UnicodeEncodeError,
       World (<[file_path := File []]> (files w))
             (OpenWrite file_path :: OpenRead file_path :: trace w) (stdout w)).
Proof.
  intros Hfile Hlit Hm. rewrite (update_as_read _ _ _ _ Hfile Hlit). cbv zeta.
  destruct (search_first_match _ _ _ _ Hm) as (cs & ->). cbn [rest].
  rewrite reverse_involutive. destruct Hm as [(-> & _) _].
  destruct (decide (m = replacement new_package)) as [->|Hne].
  - by rewrite !bool_decide_eq_true_2.
  - rewrite !bool_decide_eq_false_2; [done|done|].
    by intros ?%(inj (app pre))%(inj (λ x, x ++ post)).
Qed.

Lemma update_no_match w file_path raw new_package tpl :
  files w !! file_path = Some (File raw) →
  compile_template pattern (replacement new_package) = Ok tpl →
  ¬ has_match (universal_newlines raw) →
  update_package_declaration file_path new_package w
  = (Ok false, log (OpenRead file_path) w).
Proof.
  intros Hfile Htpl Hno%search_pattern_None.
  unfold update_package_declaration, bind, read_text, lift, sub_count1.
  by rewrite Hfile, Htpl, Hno, bool_decide_eq_true_2.
Qed.

Lemma compile_literal r repl :
  contains BACKSLASH repl = false →
  compile_template r repl = Ok (TLiteral <$> repl).
Proof. unfold compile_template. by intros ->. Qed.

(** ** The second run *)

Section second_run.
Implicit Types (b s x y z pre post m : list N).

Lemma split_literal s b x z :
  LF ∉ s → last b = Some LF → b ++ x = s ++ z →
  ∃ b', b = s ++ b' ∧ last b' = Some LF ∧ b' ++ x = z.
Proof.
  revert b. induction s as [|a s IH]; intros b Hs Hb E.
  - by exists b.
  - apply not_elem_of_cons in Hs as [Ha Hs].
    destruct b as [|c b]; [done|]. injection E as -> E.
    destruct b as [|d b]; [by injection Hb as ->|].
    rewrite last_cons_cons in Hb.
    destruct (IH _ Hs Hb E) as (b' & -> & ? & ?). by exists b'.
Qed.

Lemma split_spaces ws b x z :
  Forall (λ c, uni_isspace c = true) ws → last b = Some LF →
  head x = Some 112%N → head z = Some 111%N → b ++ x = ws ++ z →
  ∃ b', b = ws ++ b' ∧ last b' = Some LF ∧ b' ++ x = z.
Proof.
  intros Hws. revert b. induction Hws as [|c ws Hc Hws IH]; intros b Hb Hx Hz E.
  - by exists b.
  - destruct b as [|d b]; [done|]. injection E as -> E.
    destruct b as [|e b].
    + exfalso. simpl in E. subst x. destruct Hws as [|e ws He _].
      * simpl in Hx. congruence.
      * injection Hx as ->. done.
    + rewrite last_cons_cons in Hb.
      destruct (IH _ Hb Hx Hz E) as (b' & -> & ? & ?). by exists b'.
Qed.

(** A match attempt that starts before the replaced declaration never
    reaches it: if it succeeds on the rewritten text, it already succeeded
    on the original text. *)
Lemma earlier_match_transfers b x y m' post' :
  last b = Some LF → head x = Some 112%N → SEMI ∈ y →
  pkg_line m' → b ++ x = m' ++ post' →
  ∃ m'' post'', pkg_line m'' ∧ b ++ y = m'' ++ post''.
Proof.
  intros Hb Hx Hy (ws & seg & tl & -> & Hws0 & Hws & Hseg & Htl0 & Htl) E.
  rewrite <-!app_assoc in E.
  apply split_literal in E as (b1 & -> & Hb1 & E); [|by apply contains_false|done].
  apply split_spaces in E as (b2 & -> & Hb2 & E); [|done..].
  apply split_literal in E as (b3 & -> & Hb3 & E); [|by apply contains_false|done].
  apply split_literal in E as (b4 & -> & Hb4 & E);
    [|by destruct Hseg as [-> | ->]; apply contains_false|done].
  apply split_literal in E as (b5 & -> & Hb5 & E); [|by apply contains_false|done].
  destruct tl as [|c tl]; [done|]. destruct b5 as [|d b5]; [done|].
  injection E as -> E. apply not_elem_of_cons in Htl as [Hc _].
  assert (SEMI ∈ b5 ++ y) as (u & v & Huv & Hu)%list_elem_of_split_l
    by (apply elem_of_app; by right).
  exists (str "package" ++ ws ++ str "org.lareferencia." ++ seg ++ str "."
          ++ (c :: u) ++ str ";"), v.
  split.
  - exists ws, seg, (c :: u). repeat split; try done.
    by apply not_elem_of_cons.
  - rewrite <-!app_assoc. do 5 f_equal. simpl. by rewrite Huv.
Qed.

Lemma self_matching_spec p :
  self_matching p = true →
  ∃ seg tl, p = str "org.lareferencia." ++ seg ++ str "." ++ tl
    ∧ (seg = str "backend" ∨ seg = str "core")
    ∧ tl ≠ [] ∧ (SEMI ∉ p) ∧ (BACKSLASH ∉ p) ∧ (CR ∉ p).
Proof.
  unfold self_matching. rewrite !andb_true_iff, !negb_true_iff, !contains_false.
  intros [[[Hshape ?] ?] ?].
  destruct (strip_prefix (str "org.lareferencia.") p) as [q|] eqn:E1; [|done].
  apply strip_prefix_Some in E1 as ->.
  destruct (strip_prefix (str "backend.") q) as [tl|] eqn:E2.
  - apply strip_prefix_Some in E2 as ->. apply negb_true_iff in Hshape.
    exists (str "backend"), tl. repeat split; try done; [by left|].
    by apply bool_decide_eq_false in Hshape.
  - destruct (strip_prefix (str "core.") q) as [tl|] eqn:E3; [|done].
    apply strip_prefix_Some in E3 as ->. apply negb_true_iff in Hshape.
    exists (str "core"), tl. repeat split; try done; [by right|].
    by apply bool_decide_eq_false in Hshape.
Qed.

Lemma pkg_line_has_semicolon m : pkg_line m → SEMI ∈ m.
Proof.
  intros (ws & seg & tl & -> & _). rewrite !elem_of_app. do 6 right.
  apply list_elem_of_singleton. reflexivity.
Qed.

Lemma pkg_line_replacement p :
  self_matching p = true → pkg_line (replacement p).
Proof.
  intros (seg & tl & -> & Hseg & Htl0 & Hsemi & _)%self_matching_spec.
  exists (str " "), seg, tl. repeat split; try done.
  - unfold replacement. by rewrite <-!app_assoc.
  - by repeat constructor.
  - rewrite !not_elem_of_app in Hsemi. tauto.
Qed.

(** Once a declaration has been replaced by a self-matching target, the
    replaced declaration is the first match of the new content. *)
Lemma first_match_after_rewrite content pre m post p :
  self_matching p = true →
  first_match content pre m post →
  first_match (pre ++ replacement p ++ post) pre (replacement p) post.
Proof.
  intros Hp [(-> & Hpre & Hm) Hfirst]. split.
  - split; [done|]. split; [done|]. by apply pkg_line_replacement.
  - intros pre' m' post' (E & Hpre' & Hm').
    destruct (decide (length pre ≤ length pre')); [done|]. exfalso.
    apply app_eq_app in E as (b & [[-> E]|[-> E]]);
      [|rewrite length_app in *; lia].
    assert (b ≠ []) as Hb0 by (intros ->; rewrite app_nil_r in *; lia).
    assert (last b = Some LF) as Hb.
    { destruct Hpre as [Hnil|Hlast]; [by destruct pre', b|].
      rewrite last_app in Hlast. by destruct (last b) eqn:Eb;
        [|apply last_None in Eb]. }
    destruct (earlier_match_transfers b (replacement p ++ post) (m ++ post)
                m' post') as (m'' & post'' & Hm'' & E'); try done.
    { apply elem_of_app. left. by apply pkg_line_has_semicolon. }
    assert (match_at ((pre' ++ b) ++ m ++ post) pre' m'' post'') as Hearlier.
    { split; [by rewrite <-app_assoc, E'|done]. }
    apply Hfirst in Hearlier. rewrite length_app in Hearlier.
    destruct b; [done|]. simpl in Hearlier. lia.
Qed.

End second_run.

(** After a run that rewrote the file with a self-matching target, the
    next run finds the rewritten declaration, substitutes the same text for
    it and therefore writes nothing. *)
Lemma second_run w file_path raw new_package w' :
  files w !! file_path = Some (File raw) →
  self_matching new_package = true →
  update_package_declaration file_path new_package w = (Ok true, w') →
  ∃ c', files w' !! file_path = Some (File c')
    ∧ has_match c'
    ∧ sub_count1 pattern (replacement new_package) c' = Ok c'
    ∧ update_package_declaration file_path new_package w'
      = (Ok false, log (OpenRead file_path) w').
Proof.
  intros Hfile Hp Hrun.
  destruct (self_matching_spec _ Hp)
    as (_ & _ & _ & _ & _ & _ & Hbs%contains_false & Hcr).
  rewrite (update_as_read _ _ _ _ Hfile Hbs) in Hrun. cbv zeta in Hrun.
  destruct (search pattern [] (universal_newlines raw)) as [[l0 st]|] eqn:Hs;
    [|by rewrite bool_decide_eq_true_2 in Hrun].
  apply search_pattern_Some in Hs as (pre & m & Hm & -> & _).
  rewrite reverse_involutive in Hrun.
  case_bool_decide; [done|].
  destruct (encodable (pre ++ replacement new_package ++ rest st)); [|done].
  injection Hrun as <-.
  set (c' := pre ++ replacement new_package ++ rest st).
  pose proof (first_match_after_rewrite _ _ _ _ _ Hp Hm) as Hm'. fold c' in Hm'.
  assert (universal_newlines c' = c') as Hc'.
  { apply universal_newlines_id. pose proof (universal_newlines_no_CR raw) as Hraw.
    destruct Hm as [(E & _) _]. rewrite E in Hraw.
    rewrite !not_elem_of_app in Hraw. unfold c', replacement.
    rewrite !not_elem_of_app. repeat split; try tauto; by apply contains_false. }
  exists c'. split; [apply lookup_insert_eq|]. split.
  { destruct Hm' as [Hm' _]. by exists pre, (replacement new_package), (rest st). }
  split.
  - rewrite sub_count1_literal by by apply replacement_literal.
    destruct (search_first_match _ _ _ _ Hm') as (cs & ->). cbn [rest].
    by rewrite reverse_involutive.
  - rewrite <-Hc' in Hm'.
    erewrite update_first_match; [|apply lookup_insert_eq|done|done].
    by rewrite bool_decide_eq_true_2.
Qed.

(** What the substitution keeps, whatever the replacement: when it
    returns, either the content holds no match and comes back as it is, or
    the first match alone is replaced and the text before and after it is
    kept. *)
Lemma sub_count1_frame repl content new_content :
  sub_count1 pattern repl content = Ok new_content →
  (¬ has_match content ∧ new_content = content)
  ∨ ∃ pre m post x, first_match content pre m post
                    ∧ new_content = pre ++ x ++ post.
Proof.
  unfold sub_count1. destruct (compile_template pattern repl) as [tpl|e]; [|done].
  destruct (search pattern [] content) as [[l0 st]|] eqn:Hs.
  - intros [= <-]. right.
    apply search_pattern_Some in Hs as (pre & m & Hm & -> & _).
    exists pre, m, (rest st). eexists. split; [done|].
    by rewrite reverse_involutive.
  - intros [= <-]. left. by apply search_pattern_None in Hs.
Qed.

(** [re.sub] reads the replacement as a template: with the target [\1]
    the declaration [package org.lareferencia.core.foo.bar;] becomes
    [package core;]. *)
Example backslash_target_is_a_template :
  (update_package_declaration sample_path (str "\1")
     (one_file (str "package org.lareferencia.core.foo.bar;" ++ [LF]
                ++ str "class Bar {}"))).1 = Ok true
  ∧ files (update_package_declaration sample_path (str "\1")
             (one_file (str "package org.lareferencia.core.foo.bar;" ++ [LF]
                        ++ str "class Bar {}"))).2 !! sample_path
    = Some (File (str "package core;" ++ [LF] ++ str "class Bar {}")).
Proof. vm_compute. by split. Qed.

(** C2: the code breaks the claim, and its own docstring ("updates only the
    package line of each file, keeping all the rest intact"), on a file
    with CR LF line endings.  The file is read in text mode, which hands
    every CR LF to the program as LF, and written back that way: with the
    content [package org.lareferencia.backend.a;\r\nclass A {}\r\n] and
    the target [org.lareferencia.core.domain] of [PACKAGE_MAPPINGS], the
    first match is the declaration alone, yet the file becomes
    [package org.lareferencia.core.domain;\nclass A {}\n]: the text after
    the match, [\r\nclass A {}\r\n], is not kept. *)
Theorem C2_crlf_line_endings_rewritten :
  (update_package_declaration sample_path (str "org.lareferencia.core.domain")
     (one_file (str "package org.lareferencia.backend.a;" ++ [CR; LF]
                ++ str "class A {}" ++ [CR; LF]))).1 = Ok true
  ∧ files (update_package_declaration sample_path
             (str "org.lareferencia.core.domain")
             (one_file (str "package org.lareferencia.backend.a;" ++ [CR; LF]
                        ++ str "class A {}" ++ [CR; LF]))).2 !! sample_path
    = Some (File (str "package org.lareferencia.core.domain;" ++ [LF]
                  ++ str "class A {}" ++ [LF]))
  ∧ pkg_line (str "package org.lareferencia.backend.a;")
  ∧ ¬ ([CR; LF] ++ str "class A {}" ++ [CR; LF])
        `suffix_of` (str "package org.lareferencia.core.domain;" ++ [LF]
                     ++ str "class A {}" ++ [LF]).
Proof.
  split; [vm_compute; reflexivity|]. split; [vm_compute; reflexivity|]. split.
  - exists (str " "), (str "backend"), (str "a").
    split; [done|]. split; [done|]. split; [by repeat constructor|].
    split; [by left|]. split; [done|]. apply contains_false. reflexivity.
  - apply (bool_decide_unpack _). vm_compute. exact I.
Qed.

(** C3 (as amended): for every file whose content holds no match of the
    package pattern, and every target whose replacement [package <target>;]
    is a well-formed [re.sub] template (any target without a backslash is),
    [update_package_declaration] leaves the file system unchanged and
    returns false, and the loop of [process_directory] goes on with its
    count unchanged. *)
Theorem C3_no_match_left_untouched w file_path raw new_package tpl :
  files w !! file_path = Some (File raw) →
  compile_template pattern (replacement new_package) = Ok tpl →
  ¬ has_match (universal_newlines raw) →
  ∃ w', update_package_declaration file_path new_package w = (Ok false, w')
    ∧ files w' = files w
    ∧ ∀ full_path relative_path file listing count,
        file_path = path_join full_path file →
        endswith file (str ".java") = true →
        process_files full_path relative_path new_package (file :: listing) count w
        = process_files full_path relative_path new_package listing count w'.
Proof.
  intros Hfile Htpl Hno. exists (log (OpenRead file_path) w).
  pose proof (update_no_match _ _ _ _ _ Hfile Htpl Hno) as Hrun.
  split; [done|]. split; [done|].
  intros full_path relative_path file listing count -> Hjava.
  cbn [process_files]. rewrite Hjava. unfold bind at 1. by rewrite Hrun.
Qed.

Lemma no_match_hello : ¬ has_match (universal_newlines (str "hello")).
Proof. apply search_pattern_None. vm_compute. reflexivity. Qed.

Lemma C3_no_match_left_untouched_witness :
  ∃ w', update_package_declaration sample_path (str "org.lareferencia.core.domain")
          (one_file (str "hello")) = (Ok false, w')
    ∧ files w' = files (one_file (str "hello"))
    ∧ ∀ full_path relative_path file listing count,
        sample_path = path_join full_path file →
        endswith file (str ".java") = true →
        process_files full_path relative_path (str "org.lareferencia.core.domain")
          (file :: listing) count (one_file (str "hello"))
        = process_files full_path relative_path (str "org.lareferencia.core.domain")
            listing count w'.
Proof.
  apply (C3_no_match_left_untouched (one_file (str "hello")) sample_path
           (str "hello") (str "org.lareferencia.core.domain")
           (TLiteral <$> replacement (str "org.lareferencia.core.domain"))).
  - vm_compute. reflexivity.
  - vm_compute. reflexivity.
  - exact no_match_hello.
Defined.

(** C3 as stated fails for a target that is not a well-formed template:
    with the target [\q] the template compiler raises before the search,
    although the file holds no match, so the call does not return false. *)
Lemma C3_counterexample_bad_template :
  ¬ has_match (universal_newlines (str "hello"))
  ∧ (update_package_declaration sample_path (str "\q") (one_file (str "hello"))).1
    = Raise TemplateError
  ∧ (update_package_declaration sample_path (str "\q") (one_file (str "hello"))).1
    ≠ Ok false.
Proof.
  split; [exact no_match_hello|]. vm_compute. split; [reflexivity|discriminate].
Qed.

(** C5 (as amended): for every file content and every target, if
    [update_package_declaration] rewrote the file and returned true, and
    either the target is self-matching (of the form
    [org.lareferencia.(backend|core).<rest>], as all the targets of
    [PACKAGE_MAPPINGS] are) or the rewritten content holds no further match
    of the pattern, then applied again with the same target it returns
    false and leaves the file system unchanged. *)
Theorem C5_second_run_updates_nothing w file_path content new_package w' c' :
  files w !! file_path = Some (File content) →
  update_package_declaration file_path new_package w = (Ok true, w') →
  files w' !! file_path = Some (File c') →
  self_matching new_package = true
  ∨ (contains BACKSLASH new_package = false ∧ ¬ has_match (universal_newlines c')) →
  ∃ w'', update_package_declaration file_path new_package w' = (Ok false, w'')
    ∧ files w'' = files w'.
Proof.
  intros Hfile Hrun Hfile' [Hp|[Hlit Hno]]; exists (log (OpenRead file_path) w').
  - by destruct (second_run _ _ _ _ _ Hfile Hp Hrun) as (? & _ & _ & _ & ->).
  - split; [|done]. eapply update_no_match; [done| |done].
    by apply compile_literal, replacement_literal.
Qed.

Lemma C5_second_run_updates_nothing_witness :
  ∃ w'', update_package_declaration sample_path (str "org.lareferencia.core.domain")
           (update_package_declaration sample_path (str "org.lareferencia.core.domain")
              (one_file (str "package org.lareferencia.backend.domain.Foo;"
                         ++ [LF] ++ str "class Foo {}"))).2
         = (Ok false, w'')
    ∧ files w''
      = files (update_package_declaration sample_path
                 (str "org.lareferencia.core.domain")
                 (one_file (str "package org.lareferencia.backend.domain.Foo;"
                            ++ [LF] ++ str "class Foo {}"))).2.
Proof.
  apply (C5_second_run_updates_nothing
           (one_file (str "package org.lareferencia.backend.domain.Foo;"
                      ++ [LF] ++ str "class Foo {}"))
           sample_path
           (str "package org.lareferencia.backend.domain.Foo;"
            ++ [LF] ++ str "class Foo {}")
           (str "org.lareferencia.core.domain") _
           (str "package org.lareferencia.core.domain;"
            ++ [LF] ++ str "class Foo {}")).
  - vm_compute. reflexivity.
  - vm_compute. reflexivity.
  - vm_compute. reflexivity.
  - left. vm_compute. reflexivity.
Defined.

(** C5 as stated fails: with two declarations in the file and a target
    outside [org.lareferencia.(backend|core)], the first run rewrites the
    first declaration and the second run rewrites the next one, returning
    true again. *)
Lemma C5_counterexample_two_declarations :
  (update_package_declaration sample_path (str "com.example")
     (one_file (str "package org.lareferencia.core.a;" ++ [LF]
                ++ str "package org.lareferencia.core.b;" ++ [LF]))).1 = Ok true
  ∧ (update_package_declaration sample_path (str "com.example")
       (update_package_declaration sample_path (str "com.example")
          (one_file (str "package org.lareferencia.core.a;" ++ [LF]
                     ++ str "package org.lareferencia.core.b;" ++ [LF]))).2).1
    = Ok true
  ∧ (update_package_declaration sample_path (str "com.example")
       (update_package_declaration sample_path (str "com.example")
          (one_file (str "package org.lareferencia.core.a;" ++ [LF]
                     ++ str "package org.lareferencia.core.b;" ++ [LF]))).2).1
    ≠ Ok false.
Proof. vm_compute. repeat split; discriminate. Qed.

(** C8: a match can span several lines.  On a file whose first line is
    [package org.lareferencia.core.x], without semicolon, followed by the
    line [import a.b;], the match runs from [package] to the first
    semicolon, and [update_package_declaration] replaces both lines by the
    single line [package <target>;]: the import line is gone. *)
Theorem C8_match_spans_lines w file_path :
  files w !! file_path
  = Some (File (str "package org.lareferencia.core.x" ++ [LF]
                ++ str "import a.b;" ++ [LF] ++ str "public class X {}" ++ [LF])) →
  first_match (str "package org.lareferencia.core.x" ++ [LF]
               ++ str "import a.b;" ++ [LF] ++ str "public class X {}" ++ [LF])
    [] (str "package org.lareferencia.core.x" ++ [LF] ++ str "import a.b;")
    ([LF] ++ str "public class X {}" ++ [LF])
  ∧ ∃ w', update_package_declaration file_path (str "org.lareferencia.core.domain") w
          = (Ok true, w')
      ∧ files w'
        = <[file_path := File (str "package org.lareferencia.core.domain;" ++ [LF]
                               ++ str "public class X {}" ++ [LF])]> (files w).
Proof.
  intros Hfile.
  assert (first_match (str "package org.lareferencia.core.x" ++ [LF]
               ++ str "import a.b;" ++ [LF] ++ str "public class X {}" ++ [LF])
    [] (str "package org.lareferencia.core.x" ++ [LF] ++ str "import a.b;")
    ([LF] ++ str "public class X {}" ++ [LF])) as Hm.
  { split; [|intros; simpl; lia].
    split; [done|]. split; [by left|].
    exists (str " "), (str "core"), (str "x" ++ [LF] ++ str "import a.b").
    split; [done|]. split; [done|]. split; [by repeat constructor|].
    split; [by right|]. split; [done|]. apply contains_false. reflexivity. }
  split; [done|].
  erewrite update_first_match; [|done|reflexivity|exact Hm].
  rewrite bool_decide_eq_false_2 by (vm_compute; discriminate).
  eexists. split; reflexivity.
Qed.

Lemma C8_match_spans_lines_witness :
  ∃ w', update_package_declaration sample_path (str "org.lareferencia.core.domain")
          (one_file (str "package org.lareferencia.core.x" ++ [LF]
                     ++ str "import a.b;" ++ [LF] ++ str "public class X {}"
                     ++ [LF]))
        = (Ok true, w')
    ∧ files w'
      = <[sample_path := File (str "package org.lareferencia.core.domain;" ++ [LF]
                               ++ str "public class X {}" ++ [LF])]>
          (files (one_file (str "package org.lareferencia.core.x" ++ [LF]
                            ++ str "import a.b;" ++ [LF] ++ str "public class X {}"
                            ++ [LF]))).
Proof.
  refine (proj2 (C8_match_spans_lines
                   (one_file (str "package org.lareferencia.core.x" ++ [LF]
                              ++ str "import a.b;" ++ [LF]
                              ++ str "public class X {}" ++ [LF]))
                   sample_path _)).
  vm_compute. reflexivity.
Defined.

(** Every target of the embedded configuration is self-matching, with
    [core] after [org.lareferencia.]. *)
Lemma mappings_self_matching relative_path new_package :
  (relative_path, new_package) ∈ PACKAGE_MAPPINGS →
  self_matching new_package = true
  ∧ startswith new_package (str "org.lareferencia.core.") = true.
Proof.
  intros Hin.
  assert (Forall (λ e, self_matching e.2 = true
                       ∧ startswith e.2 (str "org.lareferencia.core.") = true)
            PACKAGE_MAPPINGS) as Hall.
  { unfold PACKAGE_MAPPINGS. repeat constructor. }
  rewrite Forall_forall in Hall. exact (Hall _ Hin).
Qed.

(** C9: for the embedded configuration the second run rewrites nothing,
    whatever the file: every target of [PACKAGE_MAPPINGS] starts with
    [org.lareferencia.core.], so after a run that rewrote the file the
    rewritten declaration still matches the pattern, the substitution gives
    back the same text, and [update_package_declaration] returns false
    without writing. *)
Theorem C9_embedded_targets_idempotent relative_path new_package
    w file_path content w' :
  (relative_path, new_package) ∈ PACKAGE_MAPPINGS →
  files w !! file_path = Some (File content) →
  update_package_declaration file_path new_package w = (Ok true, w') →
  startswith new_package (str "org.lareferencia.core.") = true
  ∧ ∃ c', files w' !! file_path = Some (File c')
      ∧ has_match c'
      ∧ sub_count1 pattern (replacement new_package) c' = Ok c'
      ∧ ∃ w'', update_package_declaration file_path new_package w' = (Ok false, w'')
          ∧ files w'' = files w'
          ∧ trace w'' = OpenRead file_path :: trace w'.
Proof.
  intros [Hp Hcore]%mappings_self_matching Hfile Hrun. split; [done|].
  destruct (second_run _ _ _ _ _ Hfile Hp Hrun) as (c' & ? & ? & ? & Hrun').
  exists c'. repeat split; try done. by exists (log (OpenRead file_path) w').
Qed.

Lemma C9_embedded_targets_idempotent_witness :
  startswith (str "org.lareferencia.core.domain") (str "org.lareferencia.core.") = true
  ∧ ∃ c', files (update_package_declaration sample_path
                   (str "org.lareferencia.core.domain")
                   (one_file (str "package org.lareferencia.backend.domain.Foo;"
                              ++ [LF] ++ str "class Foo {}"))).2 !! sample_path
          = Some (File c')
      ∧ has_match c'
      ∧ sub_count1 pattern (replacement (str "org.lareferencia.core.domain")) c'
        = Ok c'
      ∧ ∃ w'', update_package_declaration sample_path
                 (str "org.lareferencia.core.domain")
                 (update_package_declaration sample_path
                    (str "org.lareferencia.core.domain")
                    (one_file (str "package org.lareferencia.backend.domain.Foo;"
                               ++ [LF] ++ str "class Foo {}"))).2
               = (Ok false, w'')
          ∧ files w''
            = files (update_package_declaration sample_path
                       (str "org.lareferencia.core.domain")
                       (one_file (str "package org.lareferencia.backend.domain.Foo;"
                                  ++ [LF] ++ str "class Foo {}"))).2
          ∧ trace w''
            = OpenRead sample_path
              :: trace (update_package_declaration sample_path
                          (str "org.lareferencia.core.domain")
                          (one_file (str "package org.lareferencia.backend.domain.Foo;"
                                     ++ [LF] ++ str "class Foo {}"))).2.
Proof.
  apply (C9_embedded_targets_idempotent (str "domain")
           (str "org.lareferencia.core.domain")
           (one_file (str "package org.lareferencia.backend.domain.Foo;"
                      ++ [LF] ++ str "class Foo {}"))
           sample_path
           (str "package org.lareferencia.backend.domain.Foo;"
            ++ [LF] ++ str "class Foo {}")).
  - apply (bool_decide_unpack _). vm_compute. exact I.
  - vm_compute. reflexivity.
  - vm_compute. reflexivity.
Defined.

(** ** Directories *)

Section directories.
Implicit Types (w : world) (q path file : list N) (listing : list (list N)).

(** What one call of [update_package_declaration] can do to the world,
    whatever the file and the target. *)
Lemma update_effect file_path new_package w :
  stdout (update_package_declaration file_path new_package w).2 = stdout w
  ∧ ((trace (update_package_declaration file_path new_package w).2
      = OpenRead file_path :: trace w
      ∧ files (update_package_declaration file_path new_package w).2 = files w)
     ∨ (((update_package_declaration file_path new_package w).1 = Ok true
         ∨ (update_package_declaration file_path new_package w).1
           = Raise UnicodeEncodeError)
        ∧ trace (update_package_declaration file_path new_package w).2
          = OpenWrite file_path :: OpenRead file_path :: trace w
        ∧ ∃ data, files (update_package_declaration file_path new_package w).2
                  = <[file_path := File data]> (files w))).
Proof.
  unfold update_package_declaration, bind, read_text, lift.
  destruct (files w !! file_path) as [[raw|es]|] eqn:Hfile;
    [|split; [done|by left]..].
  destruct (sub_count1 _ _ _) as [new_content|e]; [|split; [done|by left]].
  case_bool_decide; cbn [negb]; [split; [done|by left]|].
  unfold write_text, ret. cbn [files log]. rewrite Hfile.
  destruct (encodable new_content); cbn; (split; [done|]); right; eauto.
Qed.

Lemma update_touches file_path new_package w r w' :
  update_package_declaration file_path new_package w = (r, w') →
  stdout w' = stdout w
  ∧ ∃ evs, trace w' = evs ++ trace w
      ∧ OpenRead file_path ∈ evs
      ∧ (∀ ev, ev ∈ evs → ev = OpenRead file_path ∨ ev = OpenWrite file_path)
      ∧ ∀ q, q ≠ file_path → files w' !! q = files w !! q.
Proof.
  intros Hrun.
  destruct (update_effect file_path new_package w) as [Hout Heff].
  rewrite Hrun in Hout, Heff. cbn [fst snd] in Hout, Heff. split; [done|].
  destruct Heff as [[-> ->]|(_ & -> & data & ->)].
  - exists [OpenRead file_path]. repeat split; [apply list_elem_of_here|].
    by intros ev ->%list_elem_of_singleton; left.
  - exists [OpenWrite file_path; OpenRead file_path]. split; [done|].
    split; [apply list_elem_of_further, list_elem_of_here|]. split.
    + intros ev [->|[->|[]%not_elem_of_nil]%elem_of_cons]%elem_of_cons; eauto.
    + intros q Hq. by rewrite lookup_insert_ne.
Qed.

Lemma considered_cons full_path file listing q :
  considered full_path (file :: listing) q
  ↔ (endswith file (str ".java") = true ∧ q = path_join full_path file)
    ∨ considered full_path listing q.
Proof.
  unfold considered. split.
  - intros (f & [->|Hf]%elem_of_cons & Hjava & ->); [by left|right; eauto].
  - intros [[Hjava ->]|(f & Hf & Hjava & ->)].
    + exists file. split; [apply list_elem_of_here|done].
    + exists f. split; [by apply list_elem_of_further|done].
Qed.

(** The loop touches the considered paths and nothing else, and reads
    every considered path if it runs to its end. *)
Lemma process_files_touches full_path relative_path new_package listing :
  ∀ count w r w',
    process_files full_path relative_path new_package listing count w = (r, w') →
    ∃ evs, trace w' = evs ++ trace w
      ∧ (∀ ev, ev ∈ evs →
           ∃ q, considered full_path listing q
                ∧ (ev = OpenRead q ∨ ev = OpenWrite q))
      ∧ (∀ q, ¬ considered full_path listing q → files w' !! q = files w !! q)
      ∧ (∀ n, r = Ok n → ∀ q, considered full_path listing q → OpenRead q ∈ evs).
Proof.
  induction listing as [|file listing IH]; intros count w r w' Hrun.
  - injection Hrun as <- <-. exists []. repeat split; try done.
    + by intros ev []%not_elem_of_nil.
    + by intros n _ q (f & []%not_elem_of_nil & _).
  - cbn [process_files] in Hrun.
    assert (∀ count1 w1 evs1,
      process_files full_path relative_path new_package listing count1 w1 = (r, w') →
      trace w1 = evs1 ++ trace w →
      (∀ ev, ev ∈ evs1 →
         ∃ q, considered full_path (file :: listing) q
              ∧ (ev = OpenRead q ∨ ev = OpenWrite q)) →
      (∀ q, ¬ considered full_path (file :: listing) q →
         files w1 !! q = files w !! q) →
      (∀ q, considered full_path (file :: listing) q →
         OpenRead q ∈ evs1 ∨ considered full_path listing q) →
      ∃ evs, trace w' = evs ++ trace w
        ∧ (∀ ev, ev ∈ evs →
             ∃ q, considered full_path (file :: listing) q
                  ∧ (ev = OpenRead q ∨ ev = OpenWrite q))
        ∧ (∀ q, ¬ considered full_path (file :: listing) q →
             files w' !! q = files w !! q)
        ∧ (∀ n, r = Ok n → ∀ q, considered full_path (file :: listing) q →
             OpenRead q ∈ evs)) as Hrest.
    { intros count1 w1 evs1 Hrun1 Htr1 Hev1 Hfr1 Hrd1.
      destruct (IH _ _ _ _ Hrun1) as (evs2 & Htr2 & Hev2 & Hfr2 & Hrd2).
      exists (evs2 ++ evs1). split; [by rewrite Htr2, Htr1, app_assoc|].
      split; [|split].
      - intros ev [Hin|Hin]%elem_of_app; [|by apply Hev1].
        destruct (Hev2 _ Hin) as (q & Hq & Hev). exists q. split; [|done].
        apply considered_cons. by right.
      - intros q Hq. rewrite Hfr2, Hfr1; [done..|].
        intros Hq'. apply Hq, considered_cons. by right.
      - intros n Hn q Hq. apply elem_of_app.
        destruct (Hrd1 _ Hq); [by right|left; eauto]. }
    destruct (endswith file (str ".java")) eqn:Hjava.
    + unfold bind at 1 in Hrun.
      destruct (update_package_declaration _ _ w) as [[updated|e] w1] eqn:Hup;
        apply update_touches in Hup as (Hout & evs1 & Htr1 & Hrd1 & Hev1 & Hfr1).
      * assert (∀ q, considered full_path (file :: listing) q →
                  OpenRead q ∈ evs1 ∨ considered full_path listing q) as Hcons.
        { intros q [[_ ->]|?]%considered_cons; eauto. }
        assert (∀ ev, ev ∈ evs1 →
                  ∃ q, considered full_path (file :: listing) q
                       ∧ (ev = OpenRead q ∨ ev = OpenWrite q)) as Hevs.
        { intros ev Hin. exists (path_join full_path file).
          split; [apply considered_cons; by left|by apply Hev1]. }
        assert (∀ q, ¬ considered full_path (file :: listing) q →
                  files w1 !! q = files w !! q) as Hframe.
        { intros q Hq. apply Hfr1. intros ->. apply Hq, considered_cons. by left. }
        destruct updated.
        -- unfold bind, print in Hrun. eapply Hrest; [exact Hrun|done..].
        -- eapply Hrest; [exact Hrun|done..].
      * injection Hrun as <- <-. exists evs1. split; [done|]. split; [|split].
        -- intros ev Hin. exists (path_join full_path file).
           split; [apply considered_cons; by left|by apply Hev1].
        -- intros q Hq. apply Hfr1. intros ->. apply Hq, considered_cons. by left.
        -- done.
    + apply (Hrest count w []); try done.
      * by intros ev []%not_elem_of_nil.
      * intros q [[? _]|?]%considered_cons; [congruence|by right].
Qed.

Lemma startswith_slash_false file : SLASH ∉ file → startswith file [SLASH] = false.
Proof.
  destruct file as [|c file]; [done|]. intros [Hc _]%not_elem_of_cons. cbn.
  by destruct (N.eqb_spec c SLASH) as [->|].
Qed.

Lemma endswith_plain g d : plain_name d → endswith (g ++ d) [SLASH] = false.
Proof.
  intros [Hd0 Hd]. destruct d as [|c d _] using rev_ind; [done|].
  apply not_elem_of_app in Hd as [_ [Hc _]%not_elem_of_cons].
  unfold endswith. rewrite !app_assoc, length_app. cbn [length].
  rewrite drop_app_length' by lia. cbn.
  by destruct (N.eqb_spec c SLASH) as [->|].
Qed.

(** Joining a directory with slash-free names puts the same separator
    before each of them. *)
Lemma path_join_plain full_path :
  ∃ sep, ∀ file, SLASH ∉ file → path_join full_path file = full_path ++ sep ++ file.
Proof.
  exists (if bool_decide (full_path = []) || endswith full_path [SLASH]
          then [] else [SLASH]).
  intros file Hfile. unfold path_join. rewrite startswith_slash_false by done.
  by destruct (bool_decide (full_path = []) || endswith full_path [SLASH]).
Qed.

Lemma sub_path_not_considered full_path listing d x :
  (∀ file, file ∈ listing → SLASH ∉ file) → plain_name d → plain_name x →
  ¬ considered full_path listing (path_join (path_join full_path d) x).
Proof.
  intros Hplain Hd Hx (file & Hin & _ & E).
  destruct (path_join_plain full_path) as (sep & Hsep).
  rewrite (Hsep d) in E by apply Hd. rewrite (Hsep file) in E by by apply Hplain.
  unfold path_join in E. rewrite startswith_slash_false in E by apply Hx.
  rewrite app_assoc, endswith_plain in E by done.
  rewrite bool_decide_eq_false_2 in E by (destruct Hd, full_path, sep, d; done).
  cbn [orb] in E. rewrite <-!app_assoc in E.
  apply app_inv_head, app_inv_head in E.
  apply (Hplain _ Hin). rewrite <-E, !elem_of_app. right. left.
  apply list_elem_of_here.
Qed.

Lemma other_suffix_not_considered full_path listing file :
  (∀ f, f ∈ listing → SLASH ∉ f) → SLASH ∉ file →
  endswith file (str ".java") = false →
  ¬ considered full_path listing (path_join full_path file).
Proof.
  intros Hplain Hfile Hsuffix (f & Hin & Hjava & E).
  destruct (path_join_plain full_path) as (sep & Hsep).
  rewrite (Hsep f) in E by by apply Hplain. rewrite (Hsep file) in E by done.
  apply app_inv_head, app_inv_head in E. congruence.
Qed.

(** C6: [process_directory] lists the target directory and nothing else,
    and opens, for reading or for writing, exactly entries of that
    directory whose name ends with [.java]: every other path keeps what it
    held, among them the files in sub-directories and the entries without
    the suffix; and when the call returns, every such entry has been
    read. *)
Theorem C6_only_java_entries_touched base relative_path new_package w :
  let full_path := path_join base relative_path in
  let listing := entries_of w full_path in
  let run := process_directory base relative_path new_package w in
  ∃ evs, trace run.2 = evs ++ trace w
    ∧ (∀ q, OpenRead q ∈ evs ∨ OpenWrite q ∈ evs → considered full_path listing q)
    ∧ (∀ q, Listdir q ∈ evs → q = full_path)
    ∧ (∀ q, ¬ considered full_path listing q → files run.2 !! q = files w !! q)
    ∧ (∀ n, run.1 = Ok n →
         ∀ q, considered full_path listing q → OpenRead q ∈ evs)
    ∧ ((∀ file, file ∈ listing → SLASH ∉ file) →
       (∀ d x, plain_name d → plain_name x →
          ¬ considered full_path listing (path_join (path_join full_path d) x))
       ∧ (∀ file, SLASH ∉ file → endswith file (str ".java") = false →
            ¬ considered full_path listing (path_join full_path file))).
Proof.
  intros full_path listing run.
  assert (∃ evs, trace run.2 = evs ++ trace w
    ∧ (∀ ev, ev ∈ evs → ev = Exists full_path ∨ ev = Listdir full_path
         ∨ ∃ q, considered full_path listing q
                ∧ (ev = OpenRead q ∨ ev = OpenWrite q))
    ∧ (∀ q, ¬ considered full_path listing q → files run.2 !! q = files w !! q)
    ∧ (∀ n, run.1 = Ok n →
         ∀ q, considered full_path listing q → OpenRead q ∈ evs))
    as (evs & Htr & Hev & Hfr & Hrd).
  { subst run listing. unfold process_directory, entries_of, bind, path_exists.
    fold full_path. cbn [negb].
    destruct (files w !! full_path) as [[data|entries]|] eqn:Hdir; cbn [negb].
    - unfold listdir. cbn [files log]. rewrite Hdir. cbn [fst snd].
      exists [Listdir full_path; Exists full_path]. repeat split; try done.
      intros ev [->|[->|[]%not_elem_of_nil]%elem_of_cons]%elem_of_cons; eauto.
    - unfold listdir. cbn [files log]. rewrite Hdir.
      destruct (process_files _ _ _ _ _ _) as [r w'] eqn:Hrun. cbn [fst snd].
      apply process_files_touches in Hrun as (evs & Htr & Hev & Hfr & Hrd).
      exists (evs ++ [Listdir full_path; Exists full_path]).
      split; [by rewrite Htr, <-app_assoc|]. split; [|split].
      + intros ev [Hin|[->|[->|[]%not_elem_of_nil]%elem_of_cons]%elem_of_cons]%elem_of_app;
          eauto.
      + intros q Hq. by rewrite Hfr.
      + intros n Hn q Hq. apply elem_of_app. left. eauto.
    - exists [Exists full_path]. repeat split; try done.
      + intros ev ->%list_elem_of_singleton. by left.
      + by intros n _ q (f & []%not_elem_of_nil & _). }
  exists evs. split; [done|]. split; [|split; [|split; [done|split; [done|]]]].
  - intros q [Hin|Hin]; apply Hev in Hin as [[=]|[[=]|(q' & Hq' & [[= ->]|[= ->]])]];
      done.
  - intros q Hin. by apply Hev in Hin as [[=]|[[= ->]|(q' & _ & [[=]|[=]])]].
  - intros Hplain. split.
    + intros d x. by apply sub_path_not_considered.
    + intros file. by apply other_suffix_not_considered.
Qed.

(** C4: when the joined path does not exist, [process_directory] returns 0
    at once, raises nothing and leaves every file as it was; in [main] the
    entry adds nothing to the total and the loop goes on with the next
    entry; and when no directory of the mapping exists the whole run ends
    normally with a total of 0. *)
Theorem C4_missing_directory base relative_path new_package w :
  files w !! path_join base relative_path = None →
  process_directory base relative_path new_package w
  = (Ok 0, log (Exists (path_join base relative_path)) w)
  ∧ files (log (Exists (path_join base relative_path)) w) = files w
  ∧ (base = base_path →
     ∀ mappings total_updated,
       main_loop ((relative_path, new_package) :: mappings) total_updated w
       = main_loop mappings total_updated
           (log (Exists (path_join base relative_path))
              (World (files w) (trace w)
                     (Progress relative_path new_package :: stdout w))))
  ∧ ((∀ r p, (r, p) ∈ PACKAGE_MAPPINGS → files w !! path_join base_path r = None) →
     ∃ w', main w = (Ok (), w') ∧ files w' = files w
           ∧ head (stdout w') = Some (Total 0)).
Proof.
  intros Hmissing.
  assert (∀ b r p w0, files w0 !! path_join b r = None →
            process_directory b r p w0 = (Ok 0, log (Exists (path_join b r)) w0))
    as Hskip.
  { intros b r p w0 Hnone. unfold process_directory, bind, path_exists.
    by rewrite Hnone. }
  split; [by apply Hskip|]. split; [done|]. split.
  - intros -> mappings total_updated. cbn [main_loop]. unfold bind at 1, print.
    unfold bind at 1. rewrite Hskip by done. by rewrite Nat.add_0_r.
  - intros Hall.
    assert (∀ mappings w0,
      (∀ r p, (r, p) ∈ mappings → files w0 !! path_join base_path r = None) →
      ∃ w1, main_loop mappings 0 w0 = (Ok 0, w1) ∧ files w1 = files w0) as Hloop.
    { induction mappings as [|[r p] mappings IH]; intros w0 Hnone.
      - by exists w0.
      - cbn [main_loop]. unfold bind at 1, print. unfold bind at 1.
        rewrite Hskip by (apply (Hnone r p), list_elem_of_here).
        cbn [Nat.add].
        destruct (IH (log (Exists (path_join base_path r))
                        (World (files w0) (trace w0) (Progress r p :: stdout w0))))
          as (w1 & Hrun & Hfiles).
        { intros r' p' Hin. cbn [files log].
          apply (Hnone r' p'). by apply list_elem_of_further. }
        by exists w1. }
    unfold main, bind, print.
    destruct (Hloop PACKAGE_MAPPINGS
                (World (files w) (trace w) (Banner :: stdout w)) Hall)
      as (w1 & -> & Hfiles).
    eexists. split; [reflexivity|]. done.
Qed.

Lemma C4_missing_directory_witness :
  process_directory base_path (str "domain") (str "org.lareferencia.core.domain")
    (World ∅ [] [])
  = (Ok 0, log (Exists (path_join base_path (str "domain"))) (World ∅ [] [])).
Proof.
  refine (proj1 (C4_missing_directory base_path (str "domain")
                   (str "org.lareferencia.core.domain") (World ∅ [] []) _)).
  vm_compute. reflexivity.
Defined.

(** C10: when the joined path exists but is a regular file, the existence
    test passes, [os.listdir] raises [NotADirectoryError], and nothing
    catches it: [process_directory] does not return 0, and [main], reaching
    that entry, stops there without printing a total. *)
Theorem C10_regular_file_aborts base relative_path new_package w data :
  files w !! path_join base relative_path = Some (File data) →
  process_directory base relative_path new_package w
  = (Raise NotADirectoryError,
     log (Listdir (path_join base relative_path))
       (log (Exists (path_join base relative_path)) w))
  ∧ (base = base_path →
     ∀ before after w0 total_updated,
       PACKAGE_MAPPINGS = before ++ (relative_path, new_package) :: after →
       main_loop before 0 (World (files w0) (trace w0) (Banner :: stdout w0))
       = (Ok total_updated, w) →
       ∃ w', main w0 = (Raise NotADirectoryError, w')
         ∧ files w' = files w
         ∧ stdout w' = Progress relative_path new_package :: stdout w).
Proof.
  intros Hfile.
  assert (∀ w1, files w1 = files w →
    process_directory base relative_path new_package w1
    = (Raise NotADirectoryError,
       log (Listdir (path_join base relative_path))
         (log (Exists (path_join base relative_path)) w1))) as Hraise.
  { intros w1 Hw1. unfold process_directory, bind, path_exists, listdir.
    rewrite Hw1, Hfile. cbn [negb files log]. by rewrite Hw1, Hfile. }
  split; [by apply Hraise|].
  intros -> before after w0 total_updated Hmap Hbefore.
  assert (∀ ms t w1,
    main_loop (ms ++ (relative_path, new_package) :: after) t w1
    = match main_loop ms t w1 with
      | (Ok t', w2) => main_loop ((relative_path, new_package) :: after) t' w2
      | (Raise e, w2) => (Raise e, w2)
      end) as Happ.
  { induction ms as [|[r p] ms IH]; intros t w1; [reflexivity|].
    cbn [app main_loop]. unfold bind, print.
    destruct (process_directory _ r p _) as [[n|e] w2]; [apply IH|done]. }
  unfold main, bind at 1, print. unfold bind at 1.
  rewrite Hmap, Happ, Hbefore. cbn [main_loop]. unfold bind at 1, print.
  unfold bind at 1. rewrite Hraise by done. eexists. by split.
Qed.

Lemma C10_regular_file_aborts_witness :
  process_directory base_path (str "domain") (str "org.lareferencia.core.domain")
    (World {[ path_join base_path (str "domain") := File (str "not a directory") ]}
           [] [])
  = (Raise NotADirectoryError,
     log (Listdir (path_join base_path (str "domain")))
       (log (Exists (path_join base_path (str "domain")))
          (World {[ path_join base_path (str "domain")
                    := File (str "not a directory") ]} [] []))).
Proof.
  refine (proj1 (C10_regular_file_aborts base_path (str "domain")
                   (str "org.lareferencia.core.domain")
                   (World {[ path_join base_path (str "domain")
                             := File (str "not a directory") ]} [] [])
                   (str "not a directory") _)).
  vm_compute. reflexivity.
Defined.

Lemma main_loop_runs mappings :
  ∀ total_updated w n w',
    main_loop mappings total_updated w = (Ok n, w') →
    ∃ counts, runs mappings w counts w' ∧ n = total_updated + sum_list counts
              ∧ length counts = length mappings.
Proof.
  induction mappings as [|[r p] mappings IH]; intros t w n w' Hrun.
  - injection Hrun as <- <-. exists []. split; [constructor|]. split; [|done].
    cbn. lia.
  - cbn [main_loop] in Hrun. unfold bind, print in Hrun.
    destruct (process_directory base_path r p _) as [[c|e] w1] eqn:Hdir; [|done].
    apply IH in Hrun as (counts & Hruns & -> & Hlen).
    exists (c :: counts). split; [by econstructor|]. cbn. split; lia.
Qed.

(** C7: [main] goes through the mapping entries in their insertion order,
    each call of [process_directory] starting from the world the previous
    one left, and, all entries done, prints a grand total equal to the sum
    of the counts these calls returned. *)
Theorem C7_total_is_sum_of_counts w w' :
  main w = (Ok (), w') →
  ∃ counts w2,
    runs PACKAGE_MAPPINGS (World (files w) (trace w) (Banner :: stdout w))
      counts w2
    ∧ length counts = length PACKAGE_MAPPINGS
    ∧ w' = World (files w2) (trace w2) (Total (sum_list counts) :: stdout w2).
Proof.
  unfold main, bind, print. intros Hrun.
  destruct (main_loop PACKAGE_MAPPINGS 0 _) as [[n|e] w2] eqn:Hloop; [|done].
  apply main_loop_runs in Hloop as (counts & Hruns & -> & Hlen).
  injection Hrun as <-. by exists counts, w2.
Qed.

Lemma C7_total_is_sum_of_counts_witness :
  ∃ counts w2,
    runs PACKAGE_MAPPINGS
      (World (files sample_tree) (trace sample_tree) (Banner :: stdout sample_tree))
      counts w2
    ∧ length counts = length PACKAGE_MAPPINGS
    ∧ (main sample_tree).2
      = World (files w2) (trace w2) (Total (sum_list counts) :: stdout w2).
Proof.
  apply (C7_total_is_sum_of_counts sample_tree (main sample_tree).2).
  vm_compute. reflexivity.
Defined.

Example main_sample_tree_total :
  (main sample_tree).1 = Ok ()
  ∧ head (stdout (main sample_tree).2) = Some (Total 1)
  ∧ files (main sample_tree).2
      !! path_join (path_join base_path (str "domain")) (str "notes.txt")
    = Some (File (str "package org.lareferencia.backend.domain;" ++ [LF])).
Proof. vm_compute. repeat split. Qed.

End directories.
